(** * handoff.py: the conversation compaction pipeline

    A shallow embedding of [handoff.py] (Claude.ai chat handoff generator):
    the noise filter, the JSON normaliser, the signal extractors and the two
    handoff generators, followed by the properties its specification states.

    Python values are modelled as follows.
    - A [str] is the list of its Unicode code points ([list N]); [len] is
      [length], slicing is [take]/[drop].
    - A value decoded by [json.load] is a [json]; a [dict] is the association
      list of its items in insertion order.
    - A raised exception is the [Err] branch of [result].
    - The regular expressions of the file are terms of [regex]; [re.search]
      and [re.findall] are a backtracking matcher over them. *)

From Stdlib Require Import ZArith NArith List String Ascii Lia SpecFloat.
From stdpp Require Import base option list sorting gmap.

Set Default Proof Using "Type".

(** ** Strings *)

Abbreviation str := (list N).

(** An ASCII literal of the source as a [str]. *)
Definition lit_str (x : string) : str :=
  map N_of_ascii (list_ascii_of_string x).

Definition NL : N := 10.        (* '\n' *)
Definition GLYPH_STAR : N := 10038.   (* U+2736, the six pointed star of CC status lines *)
Definition GLYPH_ELBOW : N := 9151.   (* U+23BF, the CC status indicator *)
Definition GLYPH_BOX : N := 9744.     (* U+2610, ballot box *)
Definition GLYPH_XBOX : N := 9746.    (* U+2612, ballot box with x *)
Definition E_ACUTE : N := 233.        (* U+00E9 *)
Definition DQUOTE : N := 34.

Definition str_eqb (a b : str) : bool := bool_decide (a = b).

(** [len(l)], an [int] *)
Definition len {A} (l : list A) : Z := Z.of_nat (length l).

(** [s.split('\n')]: never empty, and no piece holds a newline. *)
Fixpoint split_nl (s : str) : list str :=
  match s with
  | [] => [[]]
  | c :: s' =>
      if N.eqb c NL then [] :: split_nl s'
      else match split_nl s' with
           | l :: ls => (c :: l) :: ls
           | [] => [[c]]
           end
  end.

(** [sep.join(parts)] *)
Fixpoint join (sep : str) (parts : list str) : str :=
  match parts with
  | [] => []
  | [p] => p
  | p :: ps => p ++ sep ++ join sep ps
  end.

(** [str.isspace] on one code point, which is also the [\s] of [re] on
    [str] patterns. *)
Definition is_space (c : N) : bool :=
  ((9 <=? c) && (c <=? 13) || (28 <=? c) && (c <=? 32)
   || (c =? 133) || (c =? 160) || (c =? 5760)
   || (8192 <=? c) && (c <=? 8202)
   || (c =? 8232) || (c =? 8233) || (c =? 8239) || (c =? 8287)
   || (c =? 12288))%N.

Fixpoint lstrip (s : str) : str :=
  match s with
  | c :: s' => if is_space c then lstrip s' else s
  | [] => []
  end.

Definition rstrip (s : str) : str := rev (lstrip (rev s)).

(** [s.strip()] *)
Definition strip (s : str) : str := rstrip (lstrip s).

(** [s.startswith(p)] *)
Fixpoint startswith (p s : str) : bool :=
  match p, s with
  | [], _ => true
  | a :: p', b :: s' => N.eqb a b && startswith p' s'
  | _ :: _, [] => false
  end.

(** [needle in hay] *)
Fixpoint contains (needle hay : str) : bool :=
  startswith needle hay ||
  match hay with
  | [] => false
  | _ :: hay' => contains needle hay'
  end.

(** ** Regular expressions

    The fragment of [re] syntax the file uses: anchors, literals, character
    sets, greedy [*] and [+] over a set, concatenation and alternation. A set
    is its membership test. *)

Inductive regex :=
| Eps
| Bol                              (* ^ *)
| Eol                              (* $ *)
| Chr (c : N)
| Cls (cs : N -> bool)
| Star (cs : N -> bool)
| Plus (cs : N -> bool)
| Cat (r1 r2 : regex)
| Alt (r1 r2 : regex).

Fixpoint cats (rs : list regex) : regex :=
  match rs with
  | [] => Eps
  | [r] => r
  | r :: rs' => Cat r (cats rs')
  end.

Definition lit (x : string) : regex := cats (map Chr (lit_str x)).

Fixpoint alts (rs : list regex) : regex :=
  match rs with
  | [] => Eps
  | [r] => r
  | r :: rs' => Alt r (alts rs')
  end.

Definition any_of (cs : list (N -> bool)) (c : N) : bool :=
  existsb (fun p => p c) cs.
Definition none_of (cs : list (N -> bool)) (c : N) : bool :=
  negb (any_of cs c).
Definition one_of (x : string) (c : N) : bool :=
  existsb (N.eqb c) (lit_str x).
Definition range (lo hi : string) (c : N) : bool :=
  match lit_str lo, lit_str hi with
  | [l], [h] => ((l <=? c) && (c <=? h))%N
  | _, _ => false
  end.

(** Simple lower-case mapping, on Basic Latin and Latin-1 and the two code
    points outside them that map into Basic Latin (U+0130, U+212A): these
    are all the code points whose lower case is a literal of this file's
    patterns. *)
Definition sre_lower (c : N) : N :=
  (if (65 <=? c) && (c <=? 90) then c + 32
   else if (192 <=? c) && (c <=? 222) && negb (c =? 215) then c + 32
   else if c =? 304 then 105
   else if c =? 8490 then 107
   else c)%N.

(** The entries of [sre_compile._equivalences] that hold a literal of this
    file's patterns: i and dotless i, s and long s. *)
Definition ignorecase_fixes (lo : N) : list N :=
  (if lo =? 105 then [305] else if lo =? 115 then [383] else [])%N.

(** A pattern literal [p] against input [c] under [re.IGNORECASE]. *)
Definition chr_ignorecase (p c : N) : bool :=
  let lo := sre_lower p in
  N.eqb (sre_lower c) lo || existsb (N.eqb (sre_lower c)) (ignorecase_fixes lo).

Definition IGNORECASE : bool := true.
Definition NOFLAGS : bool := false.

(** A pattern literal [p] against input [c] under the flags of the call. *)
Definition chr_ok (flags : bool) (p c : N) : bool :=
  if flags then chr_ignorecase p c else N.eqb c p.

Section Matcher.
Context {A : Type}.
Variable flags : bool.

(** Greedy repetition of a set: as many as possible first, then give back
    one at a time. [bos] tells whether the position is the start of the
    subject. *)
Fixpoint star_greedy (cs : N -> bool) (bos : bool) (s : str)
    (k : bool -> str -> option A) : option A :=
  match s with
  | c :: s' =>
      if cs c then
        match star_greedy cs false s' k with
        | Some r => Some r
        | None => k bos s
        end
      else k bos s
  | [] => k bos s
  end.

(** Backtracking match of [r] at the head of [s], continuing with [k] on
    what is left; alternatives are tried in the order [re] tries them. *)
Fixpoint rmatch (r : regex) (bos : bool) (s : str)
    (k : bool -> str -> option A) : option A :=
  match r with
  | Eps => k bos s
  | Bol => if bos then k bos s else None
  | Eol =>
      match s with
      | [] => k bos s
      | [c] => if N.eqb c NL then k bos s else None
      | _ => None
      end
  | Chr p =>
      match s with
      | c :: s' => if chr_ok flags p c then k false s' else None
      | [] => None
      end
  | Cls cs =>
      match s with
      | c :: s' => if cs c then k false s' else None
      | [] => None
      end
  | Star cs => star_greedy cs bos s k
  | Plus cs =>
      match s with
      | c :: s' => if cs c then star_greedy cs false s' k else None
      | [] => None
      end
  | Cat r1 r2 => rmatch r1 bos s (fun b s' => rmatch r2 b s' k)
  | Alt r1 r2 =>
      match rmatch r1 bos s k with
      | Some x => Some x
      | None => rmatch r2 bos s k
      end
  end.
End Matcher.

(** The text left after the first match of [r] at the head of [s]. *)
Definition match_here (flags : bool) (r : regex) (bos : bool) (s : str)
    : option str :=
  rmatch flags r bos s (fun _ rest => Some rest).

Fixpoint search_from (flags : bool) (r : regex) (bos : bool) (s : str) : bool :=
  match match_here flags r bos s with
  | Some _ => true
  | None =>
      match s with
      | [] => false
      | _ :: s' => search_from flags r false s'
      end
  end.

(** [re.search(pattern, s, flags)] as a truth value. *)
Definition re_search (flags : bool) (r : regex) (s : str) : bool :=
  search_from flags r true s.

(** [re.findall] for a pattern without groups: the non-overlapping matches,
    scanning left to right. [skip] counts the characters of the last match
    still to step over. (No pattern of this file matches the empty text;
    after such a match the scan moves on by one character.) *)
Fixpoint findall_from (flags : bool) (r : regex) (bos : bool) (skip : nat)
    (s : str) : list str :=
  match skip with
  | S n =>
      match s with
      | [] => []
      | _ :: s' => findall_from flags r false n s'
      end
  | O =>
      match match_here flags r bos s with
      | Some rest =>
          let m := take (length s - length rest) s in
          match s with
          | [] => [m]
          | _ :: s' => m :: findall_from flags r false (length m - 1) s'
          end
      | None =>
          match s with
          | [] => []
          | _ :: s' => findall_from flags r false 0 s'
          end
      end
  end.

Definition re_findall (flags : bool) (r : regex) (s : str) : list str :=
  findall_from flags r true 0 s.

(** ** Noise filter *)

(** The patterns, in the order of the source; [*] stands for the star
    glyph, [L] for the elbow glyph and [e'] for e acute.
<<
      ^*\s*Compacting conversation     ^\s*L\s*(ballot box)
      ^*\s*Churned for                 ^\s*L\s*(ballot box with x)
      ^*\s*Saute'ed for                ^ctrl\+c to interrupt
      ^*\s*Brewed for                  thinking\)$
      ^*\s*Worked for
      ^*\s*Zigzagging
>> *)
Definition NOISE_PATTERNS : list regex :=
  [ cats [Bol; Chr GLYPH_STAR; Star is_space; lit "Compacting conversation"];
    cats [Bol; Chr GLYPH_STAR; Star is_space; lit "Churned for"];
    cats [Bol; Chr GLYPH_STAR; Star is_space; lit "Saut"; Chr E_ACUTE; lit "ed for"];
    cats [Bol; Chr GLYPH_STAR; Star is_space; lit "Brewed for"];
    cats [Bol; Chr GLYPH_STAR; Star is_space; lit "Worked for"];
    cats [Bol; Chr GLYPH_STAR; Star is_space; lit "Zigzagging"];
    cats [Bol; Star is_space; Chr GLYPH_ELBOW; Star is_space; Chr GLYPH_BOX];
    cats [Bol; Star is_space; Chr GLYPH_ELBOW; Star is_space; Chr GLYPH_XBOX];
    cats [Bol; lit "ctrl+c to interrupt"];
    cats [lit "thinking)"; Eol] ].

(** The inner loop of [filter_noise]: does some pattern match the line? *)
Definition is_noise_line (line : str) : bool :=
  existsb (fun pattern => re_search IGNORECASE pattern line) NOISE_PATTERNS.

Definition filter_noise (content : str) : str :=
  let lines := split_nl content in
  let filtered_lines := filter (fun line => negb (is_noise_line line)) lines in
  join [NL] filtered_lines.

Definition noise_indicators : list str :=
  [ lit_str "Compacting conversation";
    lit_str "ctrl+c to interrupt";
    [GLYPH_ELBOW];
    [GLYPH_STAR] ].

Definition is_noise_message (content : str) : bool :=
  let content := strip content in
  if (len content <? 100)%Z
  then existsb (fun indicator => contains indicator content) noise_indicators
  else false.

(** ** Decoded JSON and exceptions *)

(** What [json.load] returns. *)
#[local] Set Warnings "-register-all".
Inductive json :=
| JNull
| JBool (b : bool)
| JInt (n : Z)
| JFloat (f : spec_float)
| JStr (s : str)
| JList (l : list json)
| JDict (d : list (str * json)).

Inductive exn :=
| ValueError (msg : str)
| TypeError                            (* raised by the interpreter, text left out *)
| AttributeError
| KeyError
| IndexError
| OtherError (text : str)              (* a transport failure, [text] is its [str()] *)
| ApiError (code : Z) (error_body : str)  (* Exception(f"API Error {e.code}: {error_body}") *)
| ApiCallFailed (cause : exn)             (* Exception(f"API call failed: {e}") *)
| SystemExit (code : Z).

Inductive result (A : Type) :=
| Ok (a : A)
| Err (e : exn).
Arguments Ok {A} a.
Arguments Err {A} e.

Global Instance result_ret : MRet result := fun A a => Ok a.
Global Instance result_bind : MBind result := fun A B f m =>
  match m with
  | Ok a => f a
  | Err e => Err e
  end.

(** [bool(v)] *)
Definition truthy (v : json) : bool :=
  match v with
  | JNull => false
  | JBool b => b
  | JInt n => negb (Z.eqb n 0)
  | JFloat (S754_zero _) => false
  | JFloat _ => true
  | JStr s => negb (bool_decide (s = []))
  | JList l => negb (bool_decide (length l = 0))
  | JDict d => negb (bool_decide (length d = 0))
  end.

(** [v == s] for a str [s] *)
Definition eq_str (v : json) (s : str) : bool :=
  match v with
  | JStr t => str_eqb t s
  | _ => false
  end.

Fixpoint dict_lookup (k : str) (d : list (str * json)) : option json :=
  match d with
  | [] => None
  | (k', v) :: d' => if str_eqb k' k then Some v else dict_lookup k d'
  end.

(** [k in v] *)
Definition py_in (k : str) (v : json) : result bool :=
  match v with
  | JDict d => Ok (bool_decide (is_Some (dict_lookup k d)))
  | JList l => Ok (existsb (fun x => eq_str x k) l)
  | JStr s => Ok (contains k s)
  | _ => Err TypeError
  end.

(** [v.get(k, default)]; only a dict has the method. *)
Definition py_get (v : json) (k : str) (dflt : json) : result json :=
  match v with
  | JDict d => Ok (default dflt (dict_lookup k d))
  | _ => Err AttributeError
  end.

(** [for x in v]: the items a loop over [v] visits. *)
Definition py_iter (v : json) : result (list json) :=
  match v with
  | JList l => Ok l
  | JDict d => Ok (map (fun kv => JStr (fst kv)) d)
  | JStr s => Ok (map (fun c => JStr [c]) s)
  | _ => Err TypeError
  end.

(** A str method called on [v]: any other type lacks it. *)
Definition str_method (v : json) : result str :=
  match v with
  | JStr s => Ok s
  | _ => Err AttributeError
  end.

(** ['\n'.join(texts)] on a list of values *)
Fixpoint join_values (texts : list json) : result (list str) :=
  match texts with
  | [] => Ok []
  | JStr s :: rest => ss ← join_values rest; Ok (s :: ss)
  | _ :: _ => Err TypeError
  end.

(** [v[:n]]. A dict raises too, its keys never being slices: [TypeError]
    for the unhashable slice ([KeyError] from Python 3.12 on, not told
    apart here). *)
Definition slice_prefix (n : nat) (v : json) : result json :=
  match v with
  | JStr s => Ok (JStr (take n s))
  | JList l => Ok (JList (take n l))
  | _ => Err TypeError
  end.

(** [s.replace(a, b)] for single characters *)
Definition replace_char (a b : N) (s : str) : str :=
  map (fun c => if N.eqb c a then b else c) s.

(** ** JSON parsing *)

(** One Turn, the dict [parse_json_export] appends. *)
Record message := Message {
  sender : json;
  content : str;
  timestamp : str
}.

(** The dict [parse_json_export] returns. *)
Record export := Export {
  name : json;
  summary : json;
  created : json;
  updated : json;
  messages : list message
}.

(** The loop body of [extract_content_from_json]: what one item adds to
    [texts]. *)
Definition content_item (item : json) : list json :=
  match item with
  | JDict d =>
      let text := default (JStr []) (dict_lookup (lit_str "text") d) in
      if truthy text then [text] else []
  | JStr s => [item]
  | _ => []
  end.

Definition extract_content_from_json (msg : json) : result json :=
  content ← py_get msg (lit_str "content") (JList []);
  if negb (truthy content) then
    text ← py_get msg (lit_str "text") (JStr []);
    Ok (if truthy text then text else JStr [])
  else
    items ← py_iter content;
    texts ← join_values (concat (map content_item items));
    Ok (JStr (join [NL] texts)).

(** What one pass of the loop of [parse_json_export] does with [msg]:
    [None] when it skips the message, [Some t] when it appends [t]. *)
Definition parse_message (msg : json) : result (option message) :=
  content ← extract_content_from_json msg;
  content ← str_method content;
  if bool_decide (strip content = []) then Ok None else
  let content := filter_noise content in
  if bool_decide (strip content = []) then Ok None else
  if is_noise_message content then Ok None else
  sender ← py_get msg (lit_str "sender") (JStr (lit_str "unknown"));
  created_at ← py_get msg (lit_str "created_at") (JStr []);
  stamp ← slice_prefix 19 created_at;
  stamp ← str_method stamp;
  Ok (Some (Message sender content (replace_char 84 32 stamp))).

(** The loop over [raw_messages], started with [messages] as built so far.
    It returns the list as it stands when the loop ends, and the exception
    that ended it if one did. *)
Fixpoint parse_loop (raw_messages : list json) (messages : list message)
    : list message * option exn :=
  match raw_messages with
  | [] => (messages, None)
  | msg :: rest =>
      match parse_message msg with
      | Err e => (messages, Some e)
      | Ok None => parse_loop rest messages
      | Ok (Some t) => parse_loop rest (messages ++ [t])
      end
  end.

Definition FORMAT_ERROR : str :=
  lit_str "Invalid JSON format: missing 'chat_messages' or 'messages' field".

(** The check at the head of [parse_json_export]. *)
Definition validate (data : json) : result unit :=
  has_chat ← py_in (lit_str "chat_messages") data;
  (* [and] evaluates its right operand only when the left one holds *)
  has_messages ← (if has_chat : bool then Ok true
                  else py_in (lit_str "messages") data);
  if negb has_chat && negb has_messages
  then Err (ValueError FORMAT_ERROR)
  else Ok tt.

(** [parse_json_export] on the value [json.load] gave. The first component
    is the list of Turns constructed during the call, kept also when the
    call raises. *)
Definition parse_json_export_run (data : json) : list message * result export :=
  match validate data with
  | Err e => ([], Err e)
  | Ok _ =>
      match (fallback ← py_get data (lit_str "messages") (JList []);
             raw ← py_get data (lit_str "chat_messages") fallback;
             py_iter raw) with
      | Err e => ([], Err e)
      | Ok raw_messages =>
          match parse_loop raw_messages [] with
          | (built, Some e) => (built, Err e)
          | (built, None) =>
              (built,
               name ← py_get data (lit_str "name") (JStr (lit_str "Unknown Chat"));
               summary ← py_get data (lit_str "summary") (JStr []);
               created_at ← py_get data (lit_str "created_at") (JStr []);
               created ← slice_prefix 10 created_at;
               updated_at ← py_get data (lit_str "updated_at") (JStr []);
               updated ← slice_prefix 10 updated_at;
               Ok (Export name summary created updated built))
          end
      end
  end.

Definition parse_json_export (data : json) : result export :=
  snd (parse_json_export_run data).

(** ** Core functions *)

Inductive text_or_count :=
| Text (s : str)
| Count (n : Z).

(** Rough token estimate: ~4 chars per token *)
Definition estimate_tokens (x : text_or_count) : Z :=
  match x with
  | Count n => n / 4
  | Text s => len s / 4
  end.

Fixpoint uint_digits (d : Decimal.uint) : str :=
  match d with
  | Decimal.Nil => []
  | Decimal.D0 d => 48%N :: uint_digits d
  | Decimal.D1 d => 49%N :: uint_digits d
  | Decimal.D2 d => 50%N :: uint_digits d
  | Decimal.D3 d => 51%N :: uint_digits d
  | Decimal.D4 d => 52%N :: uint_digits d
  | Decimal.D5 d => 53%N :: uint_digits d
  | Decimal.D6 d => 54%N :: uint_digits d
  | Decimal.D7 d => 55%N :: uint_digits d
  | Decimal.D8 d => 56%N :: uint_digits d
  | Decimal.D9 d => 57%N :: uint_digits d
  end.

(** [f"{n}"] for a count (no sign: every number formatted is a length or a
    quotient of one) *)
Definition decimal (n : Z) : str := uint_digits (N.to_uint (Z.to_N n)).

(** Digits from the least significant one, a comma before every fourth;
    [room] is what still fits in the current group. *)
Fixpoint commas_rev (ds : str) (room : nat) : str :=
  match ds with
  | [] => []
  | d :: ds' =>
      match room with
      | O => 44%N :: d :: commas_rev ds' 2
      | S room' => d :: commas_rev ds' room'
      end
  end.

(** [f"{n:,}"] for a count *)
Definition thousands (n : Z) : str := rev (commas_rev (rev (decimal n)) 3).

(** Lexical order of [str], by code point, as [sorted] compares. *)
Fixpoint str_leb (a b : str) : bool :=
  match a, b with
  | [], _ => true
  | _ :: _, [] => false
  | x :: a', y :: b' =>
      if N.ltb x y then true
      else if N.eqb x y then str_leb a' b'
      else false
  end.

Definition str_le (a b : str) : Prop := str_leb a b.

Global Instance str_le_dec a b : Decision (str_le a b) := _.

(** [sorted(l)] *)
Definition sorted (l : list str) : list str := merge_sort str_le l.

(** The markers, in the order of the source:
<<
      (?:we|I) (?:decided|chose|will|should|need to)
      (?:the|our) pattern
      convention   architecture   migration   IMPORTANT   NOTE:   TODO:
>> *)
Definition decision_markers : list regex :=
  [ cats [alts [lit "we"; lit "I"]; lit " ";
          alts [lit "decided"; lit "chose"; lit "will"; lit "should"; lit "need to"]];
    cats [alts [lit "the"; lit "our"]; lit " pattern"];
    lit "convention";
    lit "architecture";
    lit "migration";
    lit "IMPORTANT";
    lit "NOTE:";
    lit "TODO:" ].

(** The inner loop of [extract_decisions]: the markers in order, leaving at
    the first that matches. *)
Fixpoint marker_loop (markers : list regex) (line : str) : bool :=
  match markers with
  | [] => false
  | marker :: rest =>
      if re_search IGNORECASE marker line then true
      else marker_loop rest line
  end.

(** The outer loop, with [decisions] as collected so far. *)
Fixpoint decisions_loop (lines : list str) (decisions : list str) : list str :=
  match lines with
  | [] => decisions
  | line :: rest =>
      let line := strip line in
      if (20 <? len line)%Z && (len line <? 500)%Z then
        if marker_loop decision_markers line
        then decisions_loop rest (decisions ++ [line])
        else decisions_loop rest decisions
      else decisions_loop rest decisions
  end.

Definition extract_decisions (text : str) : list str :=
  take 20 (decisions_loop (split_nl text) []).

(** The kept entries of [extract_file_paths]. *)
Definition keep_path (p : str) : bool :=
  (5 <? len p)%Z && negb (startswith (lit_str "//") p).

(** ** Python slices *)

(** A slice bound on a sequence of length [len]: a negative one counts from
    the end, and the outcome is clamped to the sequence. *)
Definition slice_bound (len : nat) (i : Z) : nat :=
  Z.to_nat (Z.min (Z.of_nat len)
                  (Z.max 0 (if Z.ltb i 0 then i + Z.of_nat len else i))).

(** [l[i:]] *)
Definition slice_from {A} (i : Z) (l : list A) : list A :=
  drop (slice_bound (length l) i) l.

(** [l[:i]] *)
Definition slice_to {A} (i : Z) (l : list A) : list A :=
  take (slice_bound (length l) i) l.

(** An integer operand: [bool] is a subclass of [int]; any other type
    raises [TypeError], at the comparison or at the slice. *)
Definition as_int (v : json) : result Z :=
  match v with
  | JInt n => Ok n
  | JBool b => Ok (if b then 1 else 0)%Z
  | _ => Err TypeError
  end.

(** ** Configuration *)

Definition VERBATIM_MESSAGE_COUNT : Z := 30.
Definition SMART_MODEL : str := lit_str "claude-sonnet-4-20250514".
Definition SMART_MAX_TOKENS : Z := 4096.

(** [config.get('smart_mode', {}).get(key, default)] *)
Definition smart_mode_get (config : json) (key : str) (dflt : json) : result json :=
  smart_mode ← py_get config (lit_str "smart_mode") (JDict []);
  py_get smart_mode key dflt.

(** ** The outside world *)

(** The POST [call_claude_api] sends. *)
Record api_request := ApiRequest {
  req_api_key : json;
  req_model : json;
  req_max_tokens : json;
  req_prompt : str
}.

(** What comes back from [urlopen] and the decoding of its body. *)
Inductive http_reply :=
| Reply (result : json)                   (* the body, through [json.loads] *)
| HTTPError (code : Z) (error_body : str) (* a non-success status *)
| Failure (text : str).                   (* anything else raised: time-out, URLError, bad body *)

(** What a run does to the world, in order. [RunSmart] and [RunStandard]
    mark the entry of a generator. *)
Inductive event :=
| ApiCall (req : api_request)
| RunSmart
| RunStandard
| WriteFile (output_filename : str) (handoff_content : str).

(** A computation that leaves a trace and may raise. *)
Definition io (A : Type) : Type := list event * result A.

Global Instance io_ret : MRet io := fun A a => ([], Ok a).
Global Instance io_bind : MBind io := fun A B f m =>
  match m with
  | (t, Ok a) => let '(t', r) := f a in (t ++ t', r)
  | (t, Err e) => (t, Err e)
  end.

Definition pure {A} (r : result A) : io A := ([], r).
Definition emit (e : event) : io unit := ([e], Ok tt).

(** [v[k]] for a str key *)
Definition subscript_key (v : json) (k : str) : result json :=
  match v with
  | JDict d =>
      match dict_lookup k d with
      | Some x => Ok x
      | None => Err KeyError
      end
  | _ => Err TypeError
  end.

(** [v[0]] *)
Definition subscript_0 (v : json) : result json :=
  match v with
  | JList (x :: _) => Ok x
  | JList [] => Err IndexError
  | JStr (c :: _) => Ok (JStr [c])
  | JStr [] => Err IndexError
  | JDict _ => Err KeyError
  | _ => Err TypeError
  end.

Definition PROMPT_HEAD : str := lit_str
"You are analyzing a development conversation to create a handoff document for resuming work in a new chat session.

CONVERSATION TO ANALYZE:
".

Definition PROMPT_TAIL : str := lit_str
"

Create a structured summary with these sections:

## Session Overview
Brief 2-3 sentence summary of what was accomplished.

## Key Accomplishments
Bullet list of concrete things completed (files created, features implemented, bugs fixed).

## Architecture Decisions
Important technical decisions made, patterns established, conventions adopted.

## Files Modified
List the key files that were created or modified (just paths, no descriptions).

## Current State
Where things stand at the end of this portion of the conversation - what works, what's in progress.

## Known Issues / TODOs
Any bugs, incomplete items, or next steps mentioned.

## Critical Context for Continuation
Any specific details (variable names, patterns, gotchas) that would be essential for continuing this work.

Be concise but complete. Focus on actionable information for resuming work.".

(** The [try] block of [call_claude_api], on what [urlopen] gave: the text
    of the reply, or the exception the handlers raise. *)
Definition read_reply (reply : http_reply) : result json :=
  match reply with
  | Reply result =>
      match (content ← subscript_key result (lit_str "content");
             first ← subscript_0 content;
             subscript_key first (lit_str "text")) with
      | Ok text => Ok text
      | Err e => Err (ApiCallFailed e)
      end
  | HTTPError code error_body => Err (ApiError code error_body)
  | Failure text => Err (ApiCallFailed (OtherError text))
  end.

(** The conversation text [generate_smart_summary] puts in the prompt. *)
Definition conversation_text (messages : list message) : str :=
  let conv_parts :=
    map (fun msg =>
           let sender := if eq_str (sender msg) (lit_str "human")
                         then lit_str "Human" else lit_str "Assistant" in
           lit_str "[" ++ sender ++ lit_str "]: " ++ slice_to 5000 (content msg))
        messages in
  let text := join [NL; NL] conv_parts in
  if (350000 <? len text)%Z
  then slice_to 350000 text ++ [NL; NL] ++ lit_str "[...truncated due to size...]"
  else text.

(** ** Handoff generation *)

Definition line (x : string) : json := JStr (lit_str x).

(** The body of the loop over the verbatim messages, the same text in both
    generators: the lines one message adds. *)
Definition render_content (content : str) : str :=
  if (8000 <? len content)%Z
  then slice_to 8000 content ++ [NL; NL] ++ lit_str "*[Truncated - original was "
       ++ thousands (len content) ++ lit_str " chars]*"
  else content.

Definition sender_label (msg : message) : str :=
  if eq_str (sender msg) (lit_str "human")
  then lit_str "**Human:**" else lit_str "**Assistant:**".

Definition render_turn (msg : message) : list json :=
  [ JStr (lit_str "### " ++ sender_label msg ++ lit_str " (" ++ timestamp msg ++ lit_str ")");
    line "";
    JStr (render_content (content msg));
    line "" ].

(** The Claude.ai summary, when there is one. *)
Definition quick_context (data : export) : list json :=
  if truthy (summary data)
  then [ line "## Quick Context (Claude.ai Auto-generated)"; line "";
         summary data; line "" ]
  else [].

Definition footer : list json :=
  [ line "---"; line "";
    line "## Resumption Instructions"; line "";
    line "1. Share this handoff document with Claude in a new chat";
    line "2. Reference any relevant project documentation";
    line "3. Specify which aspect of the work to continue";
    line "" ].

(** The AI summary section of the smart handoff. *)
Definition ai_section (ai_summary : json) : list json :=
  if truthy ai_summary
  then [ line "## AI-Summarized Earlier Content"; line ""; ai_summary; line "" ]
  else [].

(** The split of [generate_handoff_smart] into the older messages and the
    recent ones. *)
Definition older_of (verbatim_count : Z) (messages : list message) : list message :=
  if (verbatim_count <? len messages)%Z
  then slice_to (- verbatim_count) messages
  else [].

Definition recent_of (verbatim_count : Z) (messages : list message) : list message :=
  slice_from (- verbatim_count) messages.

(** ['\n'.join(lines)] *)
Definition join_lines (lines : list json) : result str :=
  texts ← join_values lines; Ok (join [NL] texts).

Section Environment.
(** What the interpreter and the world supply to a run. *)
Variable uni_isalnum : N -> bool.  (* [str.isalnum] on a code point above 127 *)
Variable py_repr : json -> str.    (* [str(v)] of a value that is not a str *)
Variable py_lower : str -> str.    (* [s.lower()] *)
Variable urlopen : api_request -> http_reply.
Variable generated : str.          (* datetime.now().strftime('%Y-%m-%d %H:%M') *)
Variable date_str : str.           (* datetime.now().strftime('%Y-%m-%d') *)
Variable mode_answer : str.        (* what the operator types at "Select mode [1]: " *)

(** [\w] of [re] on a [str] pattern *)
Definition is_word (c : N) : bool :=
  if (c <? 128)%N
  then any_of [range "a" "z"; range "A" "Z"; range "0" "9"; one_of "_"] c
  else uni_isalnum c.

Definition path_chars : N -> bool := any_of [is_word; one_of "-./"].

(** The patterns, in the order of the source; [Q] stands for the double
    quote.
<<
      [A-Za-z]:\\[^\s\'Q<>|]+       Windows paths
      /[\w\-./]+\.\w+              Unix paths with extension
      src/[\w\-./]+                 and the same for server/, docs/, lib/,
                                     app/ and components/
>> *)
Definition path_patterns : list regex :=
  [ cats [Cls (any_of [range "A" "Z"; range "a" "z"]); lit ":\";
          Plus (none_of [is_space; one_of "'<>|"; N.eqb DQUOTE])];
    cats [lit "/"; Plus path_chars; lit "."; Plus is_word];
    cats [lit "src/"; Plus path_chars];
    cats [lit "server/"; Plus path_chars];
    cats [lit "docs/"; Plus path_chars];
    cats [lit "lib/"; Plus path_chars];
    cats [lit "app/"; Plus path_chars];
    cats [lit "components/"; Plus path_chars] ].

(** The set [paths] once every pattern has been applied. *)
Definition found_paths (text : str) : gset str :=
  foldl (fun paths pattern =>
           paths ∪ list_to_set (re_findall NOFLAGS pattern text))
        ∅ path_patterns.

(** The tail of [extract_file_paths], on the order [order] in which the
    comprehension visits the set. *)
Definition filter_and_sort (order : list str) : list str :=
  sorted (filter keep_path order).

Definition extract_file_paths (text : str) : list str :=
  filter_and_sort (elements (found_paths text)).

(** [f"{v}"] *)
Definition fmt (v : json) : str :=
  match v with
  | JStr s => s
  | _ => py_repr v
  end.

Definition standard_header (data : export) (all_text : str) : list json :=
  [ JStr (lit_str "# Handoff: " ++ fmt (name data));
    line "";
    JStr (lit_str "**Generated:** " ++ generated);
    line "**Mode:** Standard (algorithmic - offline)";
    JStr (lit_str "**Original Chat Period:** " ++ fmt (created data)
          ++ lit_str " to " ++ fmt (updated data));
    JStr (lit_str "**Message Count:** " ++ decimal (len (messages data)));
    JStr (lit_str "**Estimated Tokens:** ~"
          ++ thousands (estimate_tokens (Text all_text)));
    line "" ].

Definition files_section (file_paths : list str) : list json :=
  if bool_decide (file_paths = []) then []
  else [line "## Files Referenced"; line ""]
       ++ map (fun path => JStr (lit_str "- `" ++ path ++ lit_str "`"))
              (slice_to 30 file_paths)
       ++ [line ""].

Definition decisions_section (decisions : list str) : list json :=
  if bool_decide (decisions = []) then []
  else [line "## Key Decisions & Patterns"; line ""]
       ++ map (fun decision => JStr (lit_str "- " ++ strip decision)) decisions
       ++ [line ""].

(** The messages [generate_handoff_standard] renders verbatim. *)
Definition standard_recent (data : export) : list message :=
  slice_from (- VERBATIM_MESSAGE_COUNT) (messages data).

Definition standard_lines (data : export) : list json :=
  let messages := messages data in
  let all_text := join [NL] (map content messages) in
  let file_paths := extract_file_paths all_text in
  let decisions := extract_decisions all_text in
  standard_header data all_text
  ++ quick_context data
  ++ files_section file_paths
  ++ decisions_section decisions
  ++ [ line "## Recent Conversation (Verbatim)"; line "";
       JStr (lit_str "*Last "
             ++ decimal (Z.min VERBATIM_MESSAGE_COUNT (len messages))
             ++ lit_str " messages preserved:*");
       line "" ]
  ++ concat (map render_turn (standard_recent data))
  ++ footer.

Definition generate_handoff_standard (data : export) : result str :=
  join_lines (standard_lines data).

(** One POST, then the [try] block on what came back. *)
Definition call_claude_api (api_key : json) (prompt : str)
    (model max_tokens : json) : io json :=
  let req := ApiRequest api_key model max_tokens prompt in
  _ ← emit (ApiCall req);
  pure (read_reply (urlopen req)).

(** The size warning and the spinner only print; they are left out. *)
Definition generate_smart_summary (messages : list message)
    (api_key config : json) : io json :=
  model ← pure (smart_mode_get config (lit_str "model") (JStr SMART_MODEL));
  max_tokens ← pure (smart_mode_get config (lit_str "max_output_tokens")
                                    (JInt SMART_MAX_TOKENS));
  let prompt := PROMPT_HEAD ++ conversation_text messages ++ PROMPT_TAIL in
  call_claude_api api_key prompt model max_tokens.

Definition smart_header (data : export) (older recent : list message)
    : list json :=
  let messages := messages data in
  let total_chars := foldr Z.add 0%Z (map (fun m => len (content m)) messages) in
  [ JStr (lit_str "# Handoff: " ++ fmt (name data));
    line "";
    JStr (lit_str "**Generated:** " ++ generated);
    line "**Mode:** Smart (AI-summarized)";
    JStr (lit_str "**Original Chat Period:** " ++ fmt (created data)
          ++ lit_str " to " ++ fmt (updated data));
    JStr (lit_str "**Message Count:** " ++ decimal (len messages)
          ++ lit_str " (" ++ decimal (len older) ++ lit_str " summarized, "
          ++ decimal (len recent) ++ lit_str " verbatim)");
    JStr (lit_str "**Original Size:** ~"
          ++ thousands (estimate_tokens (Count total_chars))
          ++ lit_str " tokens");
    line "" ].

Definition smart_lines (data : export) (older recent : list message)
    (ai_summary : json) : list json :=
  smart_header data older recent
  ++ quick_context data
  ++ ai_section ai_summary
  ++ [ line "## Recent Conversation (Verbatim)"; line "";
       JStr (lit_str "*Last " ++ decimal (len recent)
             ++ lit_str " messages preserved for immediate context:*");
       line "" ]
  ++ concat (map render_turn recent)
  ++ footer.

Definition generate_handoff_smart (data : export) (api_key config : json)
    : io str :=
  let messages := messages data in
  v ← pure (smart_mode_get config (lit_str "verbatim_recent_messages")
                           (JInt VERBATIM_MESSAGE_COUNT));
  verbatim_count ← pure (as_int v);
  let older_messages := older_of verbatim_count messages in
  let recent_messages := recent_of verbatim_count messages in
  ai_summary ← (if bool_decide (older_messages = []) then mret (JStr [])
                else generate_smart_summary older_messages api_key config);
  pure (join_lines (smart_lines data older_messages recent_messages ai_summary)).

(** ** The run *)

Inductive mode := Smart | Standard.

(** The choice [get_mode] makes. *)
Definition get_mode (config : json) : result mode :=
  api_key ← py_get config (lit_str "anthropic_api_key") (JStr []);
  let has_key :=
    truthy api_key
    && negb (existsb (eq_str api_key) [lit_str "YOUR_API_KEY_HERE"; []]) in
  if negb has_key then Ok Standard
  else if str_eqb (strip mode_answer) (lit_str "2") then Ok Standard
  else Ok Smart.

(** [re.sub(r'\s+', '-', s)]; [in_run] tells whether the character before
    was white space too. *)
Fixpoint dash_spaces (in_run : bool) (s : str) : str :=
  match s with
  | [] => []
  | c :: s' =>
      if is_space c
      then (if in_run then [] else [45%N]) ++ dash_spaces true s'
      else c :: dash_spaces false s'
  end.

Definition output_filename (name : json) (m : mode) : result str :=
  match name with
  | JStr s =>
      (* re.sub(r'[^\w\s\-]', '', name) *)
      let safe_name := filter (any_of [is_word; is_space; one_of "-"]) s in
      let safe_name := slice_to 50 (py_lower (dash_spaces false safe_name)) in
      let mode_suffix := match m with
                         | Smart => lit_str "-smart"
                         | Standard => lit_str "-standard"
                         end in
      Ok (date_str ++ lit_str "-handoff-" ++ safe_name ++ mode_suffix
          ++ lit_str ".md")
  | _ => Err TypeError
  end.

(** [main] from the selected input file on: [input] is what [json.load]
    gave for it, [config] what [load_config] returned. Printing is left
    out, and the file system takes the write. A [ValueError] of the parser
    ends the run with [sys.exit(1)]. *)
Definition main (input config : json) : io unit :=
  data ← pure match parse_json_export input with
              | Err (ValueError _) => Err (SystemExit 1)
              | r => r
              end;
  m ← pure (get_mode config);
  handoff_content ←
    match m with
    | Smart =>
        api_key ← pure (py_get config (lit_str "anthropic_api_key") (JStr []));
        _ ← emit RunSmart;
        generate_handoff_smart data api_key config
    | Standard =>
        _ ← emit RunStandard;
        pure (generate_handoff_standard data)
    end;
  output_filename ← pure (output_filename (name data) m);
  emit (WriteFile output_filename handoff_content).

End Environment.

(** * Definitions for the statements, and sample inputs *)

(** The lines [filter_noise] keeps. *)
Definition kept_lines (content : str) : list str :=
  filter (fun line => negb (is_noise_line line)) (split_nl content).

(** White space at neither end. *)
Definition solid (w : str) : bool :=
  match w, rev w with
  | a :: _, b :: _ => negb (is_space a) && negb (is_space b)
  | _, _ => false
  end.

(** An export with one message of 101 characters: the star glyph, then a
    hundred times the letter a. *)
Definition starred_export : json :=
  JDict [ (lit_str "messages",
           JList [ JDict [ (lit_str "sender", JStr (lit_str "human"));
                           (lit_str "text",
                            JStr (GLYPH_STAR :: replicate 100 97%N)) ] ]) ].

Definition starred_turn : message :=
  Message (JStr (lit_str "human")) (GLYPH_STAR :: replicate 100 97%N) [].

Definition starred_parsed : export :=
  Export (JStr (lit_str "Unknown Chat")) (JStr []) (JStr []) (JStr [])
         [starred_turn].

Definition greeting_fields : list (str * json) :=
  [ (lit_str "chat_messages",
     JList [ JDict [ (lit_str "sender", JStr (lit_str "human"));
                     (lit_str "text", JStr (lit_str "hello there")) ] ]) ].

Definition greeting_export : json := JDict greeting_fields.

Definition greeting_turn : message :=
  Message (JStr (lit_str "human")) (lit_str "hello there") [].

Definition greeting_parsed : export :=
  Export (JStr (lit_str "Unknown Chat")) (JStr []) (JStr []) (JStr [])
         [greeting_turn].

(** What it means for the pattern [r] to match the text [m], at the start of
    the subject when [bos] holds, and with [rest] after it. *)
Fixpoint matches (flags : bool) (r : regex) (bos : bool) (m rest : str) : Prop :=
  match r with
  | Eps => m = []
  | Bol => m = [] /\ bos = true
  | Eol => m = [] /\ (rest = [] \/ rest = [NL])
  | Chr p => exists c, m = [c] /\ chr_ok flags p c = true
  | Cls cs => exists c, m = [c] /\ cs c = true
  | Star cs => forallb cs m = true
  | Plus cs => m <> [] /\ forallb cs m = true
  | Cat r1 r2 =>
      exists m1 m2,
        m = m1 ++ m2
        /\ matches flags r1 bos m1 (m2 ++ rest)
        /\ matches flags r2 (bos && bool_decide (m1 = [])) m2 rest
  | Alt r1 r2 => matches flags r1 bos m rest \/ matches flags r2 bos m rest
  end.

(** Patterns without anchors; literals that match no white space; patterns
    whose every match begins, and ends, with such a literal. *)
Fixpoint anchor_free (r : regex) : bool :=
  match r with
  | Bol | Eol => false
  | Cat r1 r2 | Alt r1 r2 => anchor_free r1 && anchor_free r2
  | _ => true
  end.

Definition solid_lit (p : N) : bool :=
  negb (is_space p) && negb (is_space (sre_lower p))
  && forallb (fun x => negb (is_space x)) (ignorecase_fixes (sre_lower p)).

Fixpoint first_solid (r : regex) : bool :=
  match r with
  | Chr p => solid_lit p
  | Cat r1 _ => first_solid r1
  | Alt r1 r2 => first_solid r1 && first_solid r2
  | _ => false
  end.

Fixpoint last_solid (r : regex) : bool :=
  match r with
  | Chr p => solid_lit p
  | Cat _ r2 => last_solid r2
  | Alt r1 r2 => last_solid r1 && last_solid r2
  | _ => false
  end.

(** [r] is not a raised [ValueError]. *)
Definition no_value_error {A} (r : result A) : Prop :=
  forall msg, r <> Err (ValueError msg).

(** Following the specification: a line qualifies when its trimmed length is
    strictly between 20 and 500 and it matches at least one decision
    marker. *)
Definition qualifies (line : str) : bool :=
  (20 <? len (strip line))%Z && (len (strip line) <? 500)%Z
  && existsb (fun marker => re_search IGNORECASE marker line) decision_markers.

(** Following the specification: the qualifying lines, trimmed, in order of
    occurrence, cut to the first 20. *)
Definition decisions_spec (text : str) : list str :=
  take 20 (map strip (filter qualifies (split_nl text))).

(** The errors a failed call raises: the two [Exception]s of
    [call_claude_api]. *)
Definition summarization_error (e : exn) : Prop :=
  match e with
  | ApiError _ _ | ApiCallFailed _ => True
  | _ => False
  end.

(** Following the specification: a turn text over 8000 characters is shown
    as its first 8000 characters and a marker stating the original length;
    a shorter one is shown in full. *)
Definition truncation_marker (original_length : Z) : str :=
  [NL; NL] ++ lit_str "*[Truncated - original was "
  ++ thousands original_length ++ lit_str " chars]*".

Definition shown_spec (text : str) : str :=
  if decide (len text <= 8000)%Z then text
  else take (Z.to_nat 8000) text ++ truncation_marker (len text).

(** The block of a message, with its content as the specification words
    it. *)
Definition turn_block_spec (t : message) : list json :=
  [ JStr (lit_str "### " ++ sender_label t ++ lit_str " (" ++ timestamp t
          ++ lit_str ")");
    line ""; JStr (shown_spec (content t)); line "" ].

(** A sample environment: no alphanumeric code point above 127, a
    placeholder for [str()] of other values, lower case on Basic Latin and
    Latin-1, and a transport that always times out. *)
Definition sample_isalnum : N -> bool := fun _ => false.
Definition sample_repr : json -> str := fun _ => lit_str "<value>".
Definition sample_lower : str -> str := map sre_lower.
Definition timed_out : api_request -> http_reply :=
  fun _ => Failure (lit_str "timed out").
Definition sample_generated : str := lit_str "2024-05-01 12:00".
Definition sample_date : str := lit_str "2024-05-01".
Definition sample_answer : str := [].

Definition outline_request : json :=
  JDict [ (lit_str "sender", JStr (lit_str "human"));
          (lit_str "text", JStr (lit_str "Please outline the migration"));
          (lit_str "created_at", JStr (lit_str "2024-04-30T09:15:00.000Z")) ].

Definition outline_reply : json :=
  JDict [ (lit_str "content",
           JList [ JDict [ (lit_str "type", JStr (lit_str "text"));
                           (lit_str "text", JStr (lit_str "Here is the outline")) ] ]) ].

Definition two_turn_export : json :=
  JDict [ (lit_str "name", JStr (lit_str "Plan"));
          (lit_str "chat_messages", JList [outline_request; outline_reply]) ].

Definition request_turn : message :=
  Message (JStr (lit_str "human")) (lit_str "Please outline the migration")
          (lit_str "2024-04-30 09:15:00").

Definition reply_turn : message :=
  Message (JStr (lit_str "unknown")) (lit_str "Here is the outline") [].

Definition two_turn_parsed : export :=
  Export (JStr (lit_str "Plan")) (JStr []) (JStr []) (JStr [])
         [request_turn; reply_turn].

Definition one_recent_config : json :=
  JDict [ (lit_str "anthropic_api_key", JStr (lit_str "key"));
          (lit_str "smart_mode",
           JDict [ (lit_str "verbatim_recent_messages", JInt 1) ]) ].

Definition five_turn_parsed : export :=
  Export (JStr (lit_str "Plan")) (JStr []) (JStr []) (JStr [])
         [request_turn; reply_turn; request_turn; reply_turn; request_turn].

(** * Definitions for the further properties *)

(** The marks a line bears when a noise pattern matches it: the star glyph
    at its start, the elbow glyph anywhere, the letter c in either case at
    its start, or a closing parenthesis anywhere. *)
Definition may_be_noise (line : str) : bool :=
  startswith [GLYPH_STAR] line
  || contains [GLYPH_ELBOW] line
  || match line with
     | c :: _ => N.eqb c 99 || N.eqb c 67
     | [] => false
     end
  || contains (lit_str ")") line.

(** The value [parse_json_export] loops over: what ['chat_messages'] holds
    when the field is there, else what ['messages'] holds. *)
Definition container (d : list (str * json)) : json :=
  default (default (JList []) (dict_lookup (lit_str "messages") d))
          (dict_lookup (lit_str "chat_messages") d).

(** The Turn a raw message leaves in the export, if it leaves one. *)
Definition survivor (msg : json) : option message :=
  match parse_message msg with
  | Ok (Some t) => Some t
  | _ => None
  end.

(** A text field the code can take: a str, or anything that counts as
    false. *)
Definition text_ok (d : list (str * json)) : bool :=
  match default (JStr []) (dict_lookup (lit_str "text") d) with
  | JStr _ => true
  | v => negb (truthy v)
  end.

(** A content fragment the code can take: an object whose text is such a
    field, or anything that is no object. *)
Definition fragment_ok (item : json) : bool :=
  match item with
  | JDict d => text_ok d
  | _ => true
  end.

(** A raw message of the shape the export format gives: an object whose
    content is a list of such fragments (or is absent or counts as false,
    with such a text field), and whose creation time, when there, is a
    str. *)
Definition message_ok (msg : json) : bool :=
  match msg with
  | JDict d =>
      let content := default (JList []) (dict_lookup (lit_str "content") d) in
      (if truthy content
       then match content with
            | JList items => forallb fragment_ok items
            | _ => false
            end
       else text_ok d)
      && match default (JStr []) (dict_lookup (lit_str "created_at") d) with
         | JStr _ => true
         | _ => false
         end
  | _ => false
  end.

(** A date field [v[:10]] can slice. *)
Definition sliceable (v : json) : bool :=
  match v with
  | JStr _ | JList _ => true
  | _ => false
  end.

(** An export of the shape the format gives: a turn container that is a
    list of such messages, and dates that can be sliced. *)
Definition export_ok (d : list (str * json)) : bool :=
  bool_decide (is_Some (dict_lookup (lit_str "chat_messages") d)
               \/ is_Some (dict_lookup (lit_str "messages") d))
  && match container d with
     | JList raw => forallb message_ok raw
     | _ => false
     end
  && sliceable (default (JStr []) (dict_lookup (lit_str "created_at") d))
  && sliceable (default (JStr []) (dict_lookup (lit_str "updated_at") d)).

(** The text a content fragment carries, if it carries one: a str itself,
    or the non-empty text of an object. *)
Definition fragment_text (item : json) : option str :=
  match item with
  | JStr s => Some s
  | JDict d =>
      match default (JStr []) (dict_lookup (lit_str "text") d) with
      | JStr (c :: s) => Some (c :: s)
      | _ => None
      end
  | _ => None
  end.

(** The heads a path found by [extract_file_paths] can have, besides a
    drive letter with its colon and backslash. *)
Definition path_heads : list str :=
  [ lit_str "/"; lit_str "src/"; lit_str "server/"; lit_str "docs/";
    lit_str "lib/"; lit_str "app/"; lit_str "components/" ].

Definition path_shaped (p : str) : bool :=
  match p with
  | c :: rest =>
      any_of [range "A" "Z"; range "a" "z"] c && startswith (lit_str ":\") rest
  | [] => false
  end
  || existsb (fun head => startswith head p) path_heads.

(** A literal that is its own lower case and the lower case of nothing else
    matches itself only, whatever the flags. *)
Definition uncased (p : N) : bool :=
  N.eqb (sre_lower p) p
  && negb ((97 <=? p) && (p <=? 122) || (224 <=? p) && (p <=? 254))%N.

(** A line ['\n'.join] accepts. *)
Definition is_str (v : json) : bool :=
  match v with
  | JStr _ => true
  | _ => false
  end.

(** A summary the generators can print: one that counts as false, and is
    left out, or a str. *)
Definition printable (summary : json) : bool :=
  negb (truthy summary) || is_str summary.

Definition is_call (ev : event) : bool :=
  match ev with
  | ApiCall _ => true
  | _ => false
  end.

Definition is_write (ev : event) : bool :=
  match ev with
  | WriteFile _ _ => true
  | _ => false
  end.

(** What [load_config] finds at [CONFIG_FILE]: no file, a file that cannot
    be opened or decoded, or a file and the value [json.load] gives for
    it. *)
Inductive config_file :=
| NoFile
| Unreadable
| Loaded (v : json).

Definition load_config (file : config_file) : json :=
  match file with
  | Loaded v => v
  | NoFile | Unreadable => JDict []
  end.

(** The characters that lead out of a directory: the full stop, the slash
    and the backslash. *)
Definition separators : list N := [46%N; 47%N; 92%N].

Definition mode_suffix (m : mode) : str :=
  match m with
  | Smart => lit_str "-smart"
  | Standard => lit_str "-standard"
  end.

(** The count [generate_handoff_smart] reads from the configuration. *)
Definition configured_count (config : json) : result Z :=
  v ← smart_mode_get config (lit_str "verbatim_recent_messages")
                     (JInt VERBATIM_MESSAGE_COUNT);
  as_int v.

(** More sample inputs: a status line as a whole message, a message that
    holds an image only, an export with an entry that is no object, an
    export whose name is a list, and a transport that answers. *)
Definition status_text : str := GLYPH_STAR :: lit_str " Brewed for 5s".

Definition status_message : json :=
  JDict [ (lit_str "sender", JStr (lit_str "assistant"));
          (lit_str "text", JStr status_text) ].

Definition image_fields : list (str * json) :=
  [ (lit_str "sender", JStr (lit_str "human"));
    (lit_str "content",
     JList [ JDict [ (lit_str "type", JStr (lit_str "image")) ] ]) ].

Definition reply_fields : list (str * json) :=
  [ (lit_str "content",
     JList [ JDict [ (lit_str "type", JStr (lit_str "text"));
                     (lit_str "text", JStr (lit_str "Here is the outline")) ] ]) ].

Definition broken_fields : list (str * json) :=
  [ (lit_str "chat_messages",
     JList ([outline_request] ++ JInt 5 :: [outline_reply])) ].

Definition listed_name_export : json :=
  JDict [ (lit_str "name", JList [JStr (lit_str "Plan")]);
          (lit_str "chat_messages", JList [outline_request]) ].

Definition listed_name_parsed : export :=
  Export (JList [JStr (lit_str "Plan")]) (JStr []) (JStr []) (JStr [])
         [request_turn].

Definition answering : api_request -> http_reply :=
  fun _ => Reply (JDict [ (lit_str "content",
                           JList [ JDict [ (lit_str "type", JStr (lit_str "text"));
                                           (lit_str "text",
                                            JStr (lit_str "## Session Overview")) ] ]) ]).

(** The request of the sample smart run: the first of the two turns is the
    older one. *)
Definition sample_request : api_request :=
  ApiRequest (JStr (lit_str "key")) (JStr SMART_MODEL) (JInt SMART_MAX_TOKENS)
             (PROMPT_HEAD ++ conversation_text [request_turn] ++ PROMPT_TAIL).





(** A transport whose reply has the expected shape and null for its text. *)
Definition null_text : api_request -> http_reply :=
  fun _ => Reply (JDict [ (lit_str "content",
                           JList [ JDict [ (lit_str "type", JStr (lit_str "text"));
                                           (lit_str "text", JNull) ] ]) ]).

(** * Properties *)

(** ** Lines *)

Lemma split_nl_nonempty s : split_nl s <> [].
Proof.
  destruct s as [|c s]; simpl; [done|].
  destruct (N.eqb c NL); [done|]. by destruct (split_nl s).
Qed.

Lemma split_nl_no_newline s : Forall (fun l => NL ∉ l) (split_nl s).
Proof.
  induction s as [|c s IH]; simpl.
  - repeat constructor. by intros ?%elem_of_nil.
  - destruct (N.eqb_spec c NL) as [->|Hc].
    + constructor; [by intros ?%elem_of_nil | done].
    + destruct (split_nl s) as [|l ls]; inversion IH; subst.
      * repeat constructor. by intros [? | ?%elem_of_nil]%elem_of_cons.
      * constructor; [|done]. intros [? | ?]%elem_of_cons; congruence.
Qed.

Lemma split_nl_line l : NL ∉ l -> split_nl l = [l].
Proof.
  induction l as [|c l IH]; simpl; [done|]. intros Hnl.
  destruct (N.eqb_spec c NL) as [->|Hc].
  - exfalso. apply Hnl. by left.
  - rewrite IH; [done|]. intros ?. apply Hnl. by right.
Qed.

Lemma split_nl_cons_line l s : NL ∉ l -> split_nl (l ++ NL :: s) = l :: split_nl s.
Proof.
  induction l as [|c l IH]; simpl; intros Hnl.
  - done.
  - destruct (N.eqb_spec c NL) as [->|Hc].
    + exfalso. apply Hnl. by left.
    + rewrite IH; [done|]. intros ?. apply Hnl. by right.
Qed.

(** Splitting undoes joining, for lines that hold no newline. *)
Lemma split_nl_join ls :
  ls <> [] -> Forall (fun l => NL ∉ l) ls -> split_nl (join [NL] ls) = ls.
Proof.
  induction ls as [|l ls IH]; [done|]. intros _ Hall.
  inversion Hall as [|? ? Hl Hls]; subst.
  destruct ls as [|l' ls].
  - simpl. by apply split_nl_line.
  - change (join [NL] (l :: l' :: ls)) with (l ++ NL :: join [NL] (l' :: ls)).
    rewrite split_nl_cons_line by done. f_equal. by apply IH.
Qed.

(** Joining undoes splitting. *)
Lemma join_split_nl s : join [NL] (split_nl s) = s.
Proof.
  induction s as [|c s IH]; simpl; [done|].
  destruct (N.eqb_spec c NL) as [->|Hc].
  - pose proof (split_nl_nonempty s).
    destruct (split_nl s) as [|l ls] eqn:E; [done|].
    change (join [NL] ([] :: l :: ls)) with (NL :: join [NL] (l :: ls)).
    by rewrite IH.
  - pose proof (split_nl_nonempty s).
    destruct (split_nl s) as [|l ls] eqn:E; [done|].
    destruct ls as [|l' ls]; simpl in *; by rewrite <- IH.
Qed.

(** ** The noise filter *)

Lemma kept_lines_not_noise content line :
  line ∈ kept_lines content -> is_noise_line line = false.
Proof.
  unfold kept_lines. rewrite list_elem_of_filter. intros [H _].
  by destruct (is_noise_line line).
Qed.

Lemma kept_lines_no_newline content : Forall (fun l => NL ∉ l) (kept_lines content).
Proof.
  unfold kept_lines. apply Forall_forall. intros l [_ Hl]%list_elem_of_filter.
  revert l Hl. apply Forall_forall, split_nl_no_newline.
Qed.

Lemma filter_kept_lines content :
  filter (fun line => negb (is_noise_line line)) (kept_lines content)
  = kept_lines content.
Proof.
  unfold kept_lines. induction (split_nl content) as [|l ls IH]; [done|].
  rewrite filter_cons. case_decide as Hl; [|done].
  rewrite filter_cons. rewrite decide_True by done. by rewrite IH.
Qed.

Lemma empty_line_not_noise : is_noise_line [] = false.
Proof. reflexivity. Qed.

(** The lines of a filtered text are the kept lines, unless none was kept:
    then the text is empty and has the one empty line. *)
Lemma split_nl_filter_noise content :
  split_nl (filter_noise content)
  = if bool_decide (kept_lines content = []) then [[]] else kept_lines content.
Proof.
  unfold filter_noise. fold (kept_lines content).
  case_bool_decide as Hk.
  - by rewrite Hk.
  - apply split_nl_join; [done | apply kept_lines_no_newline].
Qed.

(** C1. The noise filter is idempotent: filtering a filtered text gives the
    filtered text back, for every input text. *)
Theorem filter_noise_idempotent (text : str) :
  filter_noise (filter_noise text) = filter_noise text.
Proof.
  unfold filter_noise at 1. rewrite split_nl_filter_noise.
  case_bool_decide as Hk.
  - unfold filter_noise. fold (kept_lines text). by rewrite Hk.
  - rewrite filter_kept_lines. reflexivity.
Qed.

(** ** Substrings and stripping *)

Lemma startswith_spec w s : startswith w s <-> exists post, s = w ++ post.
Proof.
  revert s. induction w as [|a w IH]; intros s; simpl.
  - split; [by exists s | done].
  - destruct s as [|b s]; simpl.
    + split; [done | by intros [? ?]].
    + rewrite andb_True, IH. destruct (N.eqb_spec a b) as [->|Hab]; split.
      * intros [_ [post ->]]. by exists post.
      * intros [post [= ->]]. split; [done | by exists post].
      * by intros [[] _].
      * intros [post [= ? ?]]. done.
Qed.

Lemma contains_spec w s : contains w s <-> exists pre post, s = pre ++ w ++ post.
Proof.
  induction s as [|b s IH]; simpl.
  - rewrite orb_True, startswith_spec. split.
    + intros [[post ->] | []]. by exists [], post.
    + intros (pre & post & H). left.
      destruct pre; [|done]. by exists post.
  - rewrite orb_True, IH, startswith_spec. split.
    + intros [[post ->] | (pre & post & ->)].
      * by exists [], post.
      * by exists (b :: pre), post.
    + intros (pre & post & H). destruct pre as [|c pre]; simpl in H.
      * left. by exists post.
      * right. injection H as -> ->. by exists pre, post.
Qed.

Lemma contains_rev w s : contains w s -> contains (rev w) (rev s).
Proof.
  rewrite !contains_spec. intros (pre & post & ->).
  exists (rev post), (rev pre). by rewrite !rev_app_distr, <- app_assoc.
Qed.

Lemma contains_join w l sep ls : l ∈ ls -> contains w l -> contains w (join sep ls).
Proof.
  intros Hin. rewrite !contains_spec. intros (pre & post & ->).
  induction ls as [|l' ls IH]; [by apply elem_of_nil in Hin|].
  apply elem_of_cons in Hin as [<- | Hin].
  - destruct ls as [|l'' ls]; simpl.
    + by exists pre, post.
    + exists pre, (post ++ sep ++ join sep (l'' :: ls)).
      by rewrite <- !app_assoc.
  - destruct (IH Hin) as (pre' & post' & E).
    destruct ls as [|l'' ls]; [by apply elem_of_nil in Hin|].
    change (join sep (l' :: l'' :: ls)) with (l' ++ sep ++ join sep (l'' :: ls)).
    rewrite E. exists (l' ++ sep ++ pre'), post'. by rewrite <- !app_assoc.
Qed.

(** A text that occurs in a line of [content] occurs in [content]. *)
Lemma contains_line w line content :
  line ∈ split_nl content -> contains w line -> contains w content.
Proof.
  intros Hin Hw. rewrite <- (join_split_nl content). by eapply contains_join.
Qed.

Lemma contains_lstrip a w s :
  is_space a = false -> contains (a :: w) s -> contains (a :: w) (lstrip s).
Proof.
  intros Ha. induction s as [|c s IH]; [done|].
  intros H. cbn [lstrip]. destruct (is_space c) eqn:Hc; [|done].
  apply IH. cbn [contains startswith] in H.
  destruct (N.eqb_spec a c) as [->|Hac]; [congruence|]. done.
Qed.

Lemma contains_strip w s : solid w -> contains w s -> contains w (strip s).
Proof.
  unfold solid, strip, rstrip. intros Hw H.
  destruct w as [|a w]; [done|].
  destruct (rev (a :: w)) as [|b w'] eqn:Hrev; [done|].
  apply andb_True in Hw as [Ha Hb].
  rewrite <- (rev_involutive (a :: w)). apply contains_rev. rewrite Hrev.
  apply contains_lstrip; [by destruct (is_space b)|].
  rewrite <- Hrev. apply contains_rev.
  apply contains_lstrip; [by destruct (is_space a) | done].
Qed.

Lemma noise_indicators_solid : Forall (fun w => solid w) noise_indicators.
Proof. repeat constructor. Qed.

(** ** The parser *)

Lemma bind_Ok {A B} (m : result A) (f : A -> result B) b :
  m ≫= f = Ok b -> exists a, m = Ok a /\ f a = Ok b.
Proof. destruct m as [a|e]; intros H; [by exists a | done]. Qed.

Lemma bind_Err {A B} (m : result A) (f : A -> result B) e :
  m ≫= f = Err e -> m = Err e \/ exists a, m = Ok a /\ f a = Err e.
Proof.
  destruct m as [a|e']; intros H; [right; by exists a | left].
  change (@Err B e' = Err e) in H. by injection H as ->.
Qed.

(** What an appended Turn says about the message it came from. *)
Lemma parse_message_Some msg t :
  parse_message msg = Ok (Some t) ->
  exists raw : str,
    content t = filter_noise raw
    /\ strip (content t) <> []
    /\ is_noise_message (content t) = false
    /\ py_get msg (lit_str "sender") (JStr (lit_str "unknown")) = Ok (sender t).
Proof.
  unfold parse_message.
  intros (c & _ & H)%bind_Ok. apply bind_Ok in H as (raw & _ & H).
  case_bool_decide; [done|]. case_bool_decide as Hne; [done|].
  destruct (is_noise_message (filter_noise raw)) eqn:Hnm; [done|].
  apply bind_Ok in H as (sd & Hsd & H). apply bind_Ok in H as (ca & _ & H).
  apply bind_Ok in H as (st & _ & H). apply bind_Ok in H as (st' & _ & H).
  injection H as <-. by exists raw.
Qed.

(** Every Turn the loop holds at its end was there at its start or was
    appended for one of the raw messages. *)
Lemma parse_loop_elem raw acc t :
  t ∈ (parse_loop raw acc).1 ->
  t ∈ acc \/ exists msg, msg ∈ raw /\ parse_message msg = Ok (Some t).
Proof.
  revert acc. induction raw as [|msg raw IH]; intros acc; simpl; [by left|].
  destruct (parse_message msg) as [[t'|]|e] eqn:Hm; simpl.
  - intros [[Hin | ->%list_elem_of_singleton]%elem_of_app
           | (msg' & Hin & H)]%IH.
    + by left.
    + right. exists msg. split; [left | done].
    + right. exists msg'. split; [by right | done].
  - intros [Hin | (msg' & Hin & H)]%IH; [by left|].
    right. exists msg'. split; [by right | done].
  - by left.
Qed.

(** The Turns of a parsed export are those the loop built. *)
Lemma parse_json_export_messages data e :
  parse_json_export data = Ok e ->
  exists raw_messages, messages e = (parse_loop raw_messages []).1.
Proof.
  unfold parse_json_export, parse_json_export_run.
  destruct (validate data); [|done].
  match goal with |- context [match ?m with Ok _ => _ | Err _ => _ end] =>
    destruct m as [raw|] end; [|done].
  destruct (parse_loop raw []) as [built [e'|]] eqn:Hloop; simpl; [done|].
  intros H. repeat (apply bind_Ok in H as (? & _ & H)).
  injection H as <-. exists raw. by rewrite Hloop.
Qed.

(** Every Turn of a parsed export was appended for some raw message. *)
Lemma parse_json_export_elem data e t :
  parse_json_export data = Ok e -> t ∈ messages e ->
  exists msg, parse_message msg = Ok (Some t).
Proof.
  intros (raw & ->)%parse_json_export_messages
         [?%elem_of_nil | (msg & _ & H)]%parse_loop_elem; [done|].
  by exists msg.
Qed.

(** ** The no-noise invariant *)

(** C2, as stated, fails: a message of a hundred characters or more is never
    tested against the message-level indicators, so the Turn of
    [starred_export] survives with the star glyph in its only line. *)
Lemma no_noise_invariant_counterexample :
  parse_json_export starred_export = Ok starred_parsed
  /\ starred_turn ∈ messages starred_parsed
  /\ content starred_turn ∈ split_nl (content starred_turn)
  /\ [GLYPH_STAR] ∈ noise_indicators
  /\ contains [GLYPH_STAR] (content starred_turn) = true.
Proof.
  split; [by vm_compute|]. split; [by left|].
  split; [by left|]. split; [|by vm_compute].
  unfold noise_indicators. do 3 right. by left.
Qed.

(** C2, amended. For every Turn of a parsed export: no line of its content
    matches a line-level noise pattern; and when its stripped content is
    shorter than 100 characters, no message-level indicator occurs in any
    of its lines. *)
Theorem surviving_turn_no_noise (data : json) (e : export) (t : message) :
  parse_json_export data = Ok e ->
  t ∈ messages e ->
  (forall line, line ∈ split_nl (content t) -> is_noise_line line = false)
  /\ ((len (strip (content t)) < 100)%Z ->
      forall line indicator,
        line ∈ split_nl (content t) -> indicator ∈ noise_indicators ->
        contains indicator line = false).
Proof.
  intros Hp Ht.
  destruct (parse_json_export_elem _ _ _ Hp Ht) as (msg & Hm).
  apply parse_message_Some in Hm as (raw & Hc & Hne & Hnm & _).
  split.
  - rewrite Hc, split_nl_filter_noise. intros line.
    case_bool_decide.
    + intros ->%list_elem_of_singleton. apply empty_line_not_noise.
    + apply kept_lines_not_noise.
  - intros Hshort line indicator Hline Hind.
    unfold is_noise_message in Hnm.
    apply Z.ltb_lt in Hshort. rewrite Hshort in Hnm.
    destruct (contains indicator line) eqn:Hcl; [exfalso | done].
    assert (contains indicator (strip (content t))) as Hcs.
    { apply contains_strip.
      - pose proof noise_indicators_solid as Hs.
        rewrite Forall_forall in Hs. by apply Hs.
      - eapply contains_line; [done|]. by rewrite Hcl. }
    assert (existsb (fun indicator => contains indicator (strip (content t)))
                    noise_indicators = true) as Hex.
    { apply existsb_exists. exists indicator.
      split; [by apply list_elem_of_In | by apply Is_true_true]. }
    congruence.
Qed.

Lemma surviving_turn_no_noise_witness :
  parse_json_export greeting_export = Ok greeting_parsed
  /\ greeting_turn ∈ messages greeting_parsed
  /\ (forall line, line ∈ split_nl (content greeting_turn) ->
        is_noise_line line = false)
  /\ ((len (strip (content greeting_turn)) < 100)%Z ->
      forall line indicator,
        line ∈ split_nl (content greeting_turn) ->
        indicator ∈ noise_indicators ->
        contains indicator line = false).
Proof.
  assert (parse_json_export greeting_export = Ok greeting_parsed) as Hp
    by (vm_compute; reflexivity).
  assert (greeting_turn ∈ messages greeting_parsed) as Ht
    by (simpl; left).
  split; [exact Hp|]. split; [exact Ht|].
  exact (surviving_turn_no_noise greeting_export greeting_parsed greeting_turn Hp Ht).
Defined.

(** ** Format errors *)

Create HintDb nve discriminated.

Lemma nve_Ok {A} (a : A) : no_value_error (Ok a).
Proof. by intros msg. Qed.

Lemma nve_bind {A B} (m : result A) (f : A -> result B) :
  no_value_error m -> (forall a, no_value_error (f a)) ->
  no_value_error (m ≫= f).
Proof.
  intros Hm Hf msg [H | (a & _ & H)]%bind_Err; [by apply (Hm msg)|].
  by apply (Hf a msg).
Qed.

Lemma nve_py_get v k dflt : no_value_error (py_get v k dflt).
Proof. by destruct v; intros msg. Qed.

Lemma nve_py_iter v : no_value_error (py_iter v).
Proof. by destruct v; intros msg. Qed.

Lemma nve_str_method v : no_value_error (str_method v).
Proof. by destruct v; intros msg. Qed.

Lemma nve_slice_prefix n v : no_value_error (slice_prefix n v).
Proof. by destruct v; intros msg. Qed.

Lemma nve_join_values texts : no_value_error (join_values texts).
Proof.
  induction texts as [|v texts IH]; [apply nve_Ok|].
  destruct v; try by intros msg.
  simpl. apply nve_bind; [done|]. intros ss. apply nve_Ok.
Qed.

#[local] Hint Resolve nve_Ok nve_py_get nve_py_iter nve_str_method
  nve_slice_prefix nve_join_values : nve.

Ltac nve_step :=
  first [ apply nve_bind; [solve [auto with nve] | intros ?]
        | solve [auto with nve]
        | match goal with
          | |- no_value_error (if ?b then _ else _) => destruct b
          end ].

Lemma nve_extract_content_from_json msg :
  no_value_error (extract_content_from_json msg).
Proof. unfold extract_content_from_json. repeat nve_step. Qed.

Lemma nve_parse_message msg : no_value_error (parse_message msg).
Proof.
  unfold parse_message.
  apply nve_bind; [apply nve_extract_content_from_json | intros ?].
  repeat nve_step.
Qed.

Lemma parse_loop_no_value_error raw acc msg :
  (parse_loop raw acc).2 <> Some (ValueError msg).
Proof.
  revert acc. induction raw as [|m raw IH]; intros acc; simpl; [done|].
  pose proof (nve_parse_message m msg) as Hm.
  destruct (parse_message m) as [[t|]|e]; simpl; [apply IH | apply IH |].
  congruence.
Qed.

Lemma validate_absent d :
  dict_lookup (lit_str "chat_messages") d = None ->
  dict_lookup (lit_str "messages") d = None ->
  validate (JDict d) = Err (ValueError FORMAT_ERROR).
Proof. unfold validate. simpl. by intros -> ->. Qed.

Lemma validate_present d :
  is_Some (dict_lookup (lit_str "chat_messages") d)
  \/ is_Some (dict_lookup (lit_str "messages") d) ->
  validate (JDict d) = Ok tt.
Proof.
  unfold validate. simpl. intros [H | H].
  - by rewrite bool_decide_eq_true_2.
  - case_bool_decide; [done|]. simpl. by rewrite bool_decide_eq_true_2.
Qed.

(** C4. An export object with neither ['chat_messages'] nor ['messages']
    makes [parse_json_export] raise the format error, whose text names both
    fields, with no Turn constructed; an export object with at least one of
    them never makes it raise a [ValueError]. *)
Theorem format_error_iff_containers_absent (d : list (str * json)) :
  (dict_lookup (lit_str "chat_messages") d = None ->
   dict_lookup (lit_str "messages") d = None ->
   parse_json_export_run (JDict d) = ([], Err (ValueError FORMAT_ERROR)))
  /\ (is_Some (dict_lookup (lit_str "chat_messages") d)
      \/ is_Some (dict_lookup (lit_str "messages") d) ->
      no_value_error (parse_json_export (JDict d)))
  /\ contains (lit_str "'chat_messages'") FORMAT_ERROR = true
  /\ contains (lit_str "'messages'") FORMAT_ERROR = true.
Proof.
  split; [|split; [|split; by vm_compute]].
  - intros Hc Hm. unfold parse_json_export_run.
    by rewrite validate_absent.
  - intros Hsome msg. unfold parse_json_export, parse_json_export_run.
    rewrite validate_present by done.
    match goal with |- context [match ?m with Ok _ => _ | Err _ => _ end] =>
      assert (no_value_error m) as Hraw by repeat nve_step;
      destruct m as [raw|e]
    end; [|simpl; intros [= ->]; by apply (Hraw msg)].
    pose proof (parse_loop_no_value_error raw [] msg) as Hloop.
    destruct (parse_loop raw []) as [built [e|]]; simpl in *; [congruence|].
    clear Hloop. revert msg. fold (no_value_error (A:=export)).
    repeat nve_step.
Qed.

(** ** Lexical order *)

Lemma str_leb_total a b : str_leb a b = true \/ str_leb b a = true.
Proof.
  revert b. induction a as [|x a IH]; intros [|y b]; simpl; auto.
  destruct (N.ltb_spec x y), (N.ltb_spec y x), (N.eqb_spec x y),
    (N.eqb_spec y x); auto; try lia.
Qed.

Lemma str_leb_trans a b c :
  str_leb a b = true -> str_leb b c = true -> str_leb a c = true.
Proof.
  revert b c. induction a as [|x a IH]; intros [|y b] [|z c]; simpl; auto;
    try discriminate.
  destruct (N.ltb_spec x y), (N.ltb_spec y z), (N.ltb_spec x z),
    (N.eqb_spec x y), (N.eqb_spec y z), (N.eqb_spec x z);
    auto; try discriminate; try lia.
  apply IH.
Qed.

Lemma str_leb_antisym a b :
  str_leb a b = true -> str_leb b a = true -> a = b.
Proof.
  revert b. induction a as [|x a IH]; intros [|y b]; simpl; auto;
    try discriminate.
  destruct (N.ltb_spec x y), (N.ltb_spec y x), (N.eqb_spec x y),
    (N.eqb_spec y x); try discriminate; try lia.
  intros. subst. f_equal. by apply IH.
Qed.

Global Instance str_le_total : Total str_le.
Proof.
  intros a b. unfold str_le.
  destruct (str_leb_total a b) as [-> | ->]; [by left | by right].
Qed.

Global Instance str_le_trans : Transitive str_le.
Proof.
  intros a b c Hab%Is_true_true Hbc%Is_true_true.
  apply Is_true_true. by eapply str_leb_trans.
Qed.

Global Instance str_le_antisym : AntiSymm (=) str_le.
Proof.
  intros a b Hab%Is_true_true Hba%Is_true_true. by apply str_leb_antisym.
Qed.

(** ** File paths *)

Section Paths.
Variable uni_isalnum : N -> bool.

Lemma filter_and_sort_perm order : filter_and_sort order ≡ₚ filter keep_path order.
Proof. apply merge_sort_Permutation. Qed.

Lemma filter_and_sort_sorted order : StronglySorted str_le (filter_and_sort order).
Proof. apply (StronglySorted_merge_sort str_le). Qed.

(** The outcome does not depend on the order in which the set is
    visited. *)
Lemma filter_and_sort_order order1 order2 :
  order1 ≡ₚ order2 -> filter_and_sort order1 = filter_and_sort order2.
Proof.
  intros Hp. apply (StronglySorted_unique str_le).
  - apply filter_and_sort_sorted.
  - apply filter_and_sort_sorted.
  - rewrite !filter_and_sort_perm. by rewrite Hp.
Qed.

(** C6. For every text, [extract_file_paths] returns a list without
    duplicates, each entry longer than 5 characters and not starting with
    two slashes, in lexical order; and whatever the order in which the
    set of matches is visited, the list is the same. *)
Theorem extract_file_paths_sorted_set (text : str) :
  let paths := extract_file_paths uni_isalnum text in
  NoDup paths
  /\ Forall (fun p => (5 < len p)%Z /\ startswith (lit_str "//") p = false) paths
  /\ StronglySorted str_le paths
  /\ (forall order, order ≡ₚ elements (found_paths uni_isalnum text) ->
        filter_and_sort order = paths)
  /\ (forall p, p ∈ paths <->
        p ∈ found_paths uni_isalnum text /\ keep_path p = true).
Proof.
  simpl. unfold extract_file_paths.
  set (S := found_paths uni_isalnum text).
  assert (forall p, p ∈ filter_and_sort (elements S) <->
                    p ∈ S /\ keep_path p = true) as Hmem.
  { intros p. rewrite filter_and_sort_perm, list_elem_of_filter, elem_of_elements.
    rewrite Is_true_true. tauto. }
  split; [|split; [|split; [|split]]].
  - rewrite filter_and_sort_perm. apply NoDup_filter, NoDup_elements.
  - apply Forall_forall. intros p [_ Hk]%Hmem.
    unfold keep_path in Hk. apply andb_true_iff in Hk as [H5 Hs].
    split; [by apply Z.ltb_lt | by apply negb_true_iff].
  - apply filter_and_sort_sorted.
  - intros order Hp. by apply filter_and_sort_order.
  - exact Hmem.
Qed.
End Paths.

(** ** Regular expressions *)

Section MatcherSpec.
Context {A : Type}.
Variable flags : bool.

Lemma star_greedy_spec cs bos s (k : bool -> str -> option A) :
  is_Some (star_greedy cs bos s k) <->
  exists m rest,
    s = m ++ rest /\ forallb cs m = true
    /\ is_Some (k (bos && bool_decide (m = [])) rest).
Proof.
  revert bos. induction s as [|c s IH]; intros bos; simpl.
  - split.
    + intros H. exists [], []. by rewrite andb_true_r.
    + intros (m & rest & E & _ & H).
      symmetry in E. apply app_eq_nil in E as [-> ->].
      by rewrite andb_true_r in H.
  - destruct (cs c) eqn:Hc.
    + destruct (star_greedy cs false s k) as [x|] eqn:Hs.
      * split; [intros _ | by eauto].
        assert (is_Some (star_greedy cs false s k)) as Hsome by (rewrite Hs; eauto).
        apply IH in Hsome as (m & rest & -> & Hm & Hk).
        exists (c :: m), rest. simpl. rewrite Hc, Hm. split; [done|]. split; [done|].
        by rewrite andb_false_r.
      * split.
        -- intros H. exists [], (c :: s). by rewrite andb_true_r.
        -- intros (m & rest & E & Hm & H). destruct m as [|c' m].
           ++ simpl in E. subst rest. by rewrite andb_true_r in H.
           ++ injection E as <- ->. simpl in Hm. apply andb_true_iff in Hm as [_ Hm].
              rewrite andb_false_r in H.
              assert (is_Some (star_greedy cs false (m ++ rest) k)) as Hsome.
              { apply IH. exists m, rest. by rewrite andb_false_l. }
              rewrite Hs in Hsome. by destruct Hsome.
    + split.
      * intros H. exists [], (c :: s). by rewrite andb_true_r.
      * intros (m & rest & E & Hm & H). destruct m as [|c' m].
        -- simpl in E. subst rest. by rewrite andb_true_r in H.
        -- injection E as <- ->. simpl in Hm. by rewrite Hc in Hm.
Qed.

Lemma rmatch_spec r bos s (k : bool -> str -> option A) :
  is_Some (rmatch flags r bos s k) <->
  exists m rest,
    s = m ++ rest /\ matches flags r bos m rest
    /\ is_Some (k (bos && bool_decide (m = [])) rest).
Proof.
  revert bos s k. induction r as [| | |p|cs|cs|cs|r1 IH1 r2 IH2|r1 IH1 r2 IH2];
    intros bos s k; simpl.
  - (* Eps *) split.
    + intros H. exists [], s. by rewrite andb_true_r.
    + intros (m & rest & -> & -> & H). by rewrite andb_true_r in H.
  - (* Bol *) split.
    + destruct bos; [|by intros []]. intros H. by exists [], s.
    + intros (m & rest & -> & [-> ->] & H). done.
  - (* Eol *) split.
    + intros H. exists [], s. rewrite andb_true_r.
      destruct s as [|c [|c' s]]; [by auto | | by destruct H].
      destruct (N.eqb_spec c NL) as [->|]; [by auto | by destruct H].
    + intros (m & rest & -> & [-> [-> | ->]] & H); simpl;
        by rewrite andb_true_r in H.
  - (* Chr *) fold (chr_ok flags p). split.
    + destruct s as [|c s]; [by intros []|].
      fold (chr_ok flags p c).
      destruct (chr_ok flags p c) eqn:Hc; [|by intros []].
      intros H. exists [c], s. rewrite andb_false_r. eauto.
    + intros (m & rest & -> & (c & -> & Hc) & H). simpl.
      fold (chr_ok flags p c). rewrite Hc. by rewrite andb_false_r in H.
  - (* In *) split.
    + destruct s as [|c s]; [by intros []|].
      destruct (cs c) eqn:Hc; [|by intros []].
      intros H. exists [c], s. rewrite andb_false_r. eauto.
    + intros (m & rest & -> & (c & -> & Hc) & H). simpl.
      rewrite Hc. by rewrite andb_false_r in H.
  - (* Star *) apply star_greedy_spec.
  - (* Plus *) split.
    + destruct s as [|c s]; [by intros []|].
      destruct (cs c) eqn:Hc; [|by intros []].
      intros (m & rest & -> & Hm & H)%star_greedy_spec.
      exists (c :: m), rest. simpl. rewrite Hc, Hm, andb_false_r.
      rewrite andb_false_l in H. done.
    + intros (m & rest & -> & [Hne Hm] & H). destruct m as [|c m]; [done|].
      simpl in *. apply andb_true_iff in Hm as [-> Hm].
      apply star_greedy_spec. exists m, rest. rewrite andb_false_l.
      by rewrite andb_false_r in H.
  - (* Cat *) rewrite IH1. split.
    + intros (m1 & rest1 & -> & Hm1 & (m2 & rest & -> & Hm2 & H)%IH2).
      exists (m1 ++ m2), rest. rewrite <- app_assoc. split; [done|].
      split; [by exists m1, m2|].
      destruct m1, m2; simpl in *; rewrite ?andb_true_r, ?andb_false_r in *; done.
    + intros (m & rest & -> & (m1 & m2 & -> & Hm1 & Hm2) & H).
      exists m1, (m2 ++ rest). rewrite <- app_assoc. split; [done|].
      split; [done|]. apply IH2. exists m2, rest. split; [done|]. split; [done|].
      destruct m1, m2; simpl in *; rewrite ?andb_true_r, ?andb_false_r in *; done.
  - (* Alt *) destruct (rmatch flags r1 bos s k) as [x|] eqn:H1.
    + split; [intros _ | by eauto].
      assert (is_Some (rmatch flags r1 bos s k)) as Hsome by (rewrite H1; eauto).
      apply IH1 in Hsome as (m & rest & -> & Hm & H). exists m, rest. auto.
    + rewrite IH2. split.
      * intros (m & rest & -> & Hm & H). exists m, rest. auto.
      * intros (m & rest & -> & [Hm | Hm] & H).
        -- assert (is_Some (rmatch flags r1 bos (m ++ rest) k)) as Hsome.
           { apply IH1. by exists m, rest. }
           rewrite H1 in Hsome. by destruct Hsome.
        -- by exists m, rest.
Qed.
End MatcherSpec.

Lemma match_here_spec flags r bos s :
  is_Some (match_here flags r bos s) <->
  exists m rest, s = m ++ rest /\ matches flags r bos m rest.
Proof.
  unfold match_here. rewrite rmatch_spec. split.
  - intros (m & rest & E & Hm & _). eauto.
  - intros (m & rest & E & Hm). exists m, rest. eauto.
Qed.

Lemma search_from_spec flags r bos s :
  search_from flags r bos s = true <->
  exists pre m post,
    s = pre ++ m ++ post
    /\ matches flags r (bos && bool_decide (pre = [])) m post.
Proof.
  revert bos. induction s as [|c s IH]; intros bos; simpl.
  - destruct (match_here flags r bos []) as [x|] eqn:Hh.
    + split; [intros _ | done].
      assert (is_Some (match_here flags r bos [])) as Hs by (rewrite Hh; eauto).
      apply match_here_spec in Hs as (m & rest & E & Hm).
      exists [], m, rest. by rewrite andb_true_r.
    + split; [done|]. intros (pre & m & post & E & Hm).
      destruct pre; [|done]. simpl in E. rewrite andb_true_r in Hm.
      assert (is_Some (match_here flags r bos [])) as Hs.
      { apply match_here_spec. by exists m, post. }
      rewrite Hh in Hs. by destruct Hs.
  - destruct (match_here flags r bos (c :: s)) as [x|] eqn:Hh.
    + split; [intros _ | done].
      assert (is_Some (match_here flags r bos (c :: s))) as Hs by (rewrite Hh; eauto).
      apply match_here_spec in Hs as (m & rest & E & Hm).
      exists [], m, rest. by rewrite andb_true_r.
    + rewrite IH. split.
      * intros (pre & m & post & -> & Hm). exists (c :: pre), m, post.
        split; [done|]. by rewrite andb_false_r.
      * intros (pre & m & post & E & Hm). destruct pre as [|c' pre].
        -- simpl in E. rewrite andb_true_r in Hm.
           assert (is_Some (match_here flags r bos (c :: s))) as Hs.
           { apply match_here_spec. by exists m, post. }
           rewrite Hh in Hs. by destruct Hs.
        -- injection E as <- ->. exists pre, m, post. split; [done|].
           by rewrite andb_false_r in Hm.
Qed.

(** [re.search] finds a match exactly when some piece of the subject
    matches, the anchors read against what surrounds the piece. *)
Lemma re_search_spec flags r s :
  re_search flags r s = true <->
  exists pre m post,
    s = pre ++ m ++ post /\ matches flags r (bool_decide (pre = [])) m post.
Proof. unfold re_search. by rewrite search_from_spec. Qed.

Lemma matches_anchor_free flags r bos bos' m rest rest' :
  anchor_free r = true ->
  matches flags r bos m rest -> matches flags r bos' m rest'.
Proof.
  revert bos bos' m rest rest'.
  induction r as [| | |p|cs|cs|cs|r1 IH1 r2 IH2|r1 IH1 r2 IH2];
    intros bos bos' m rest rest'; simpl; try done.
  - intros [H1 H2]%andb_true_iff (m1 & m2 & -> & Hm1 & Hm2).
    exists m1, m2. split; [done|]. split; [by eapply IH1 | by eapply IH2].
  - intros [H1 H2]%andb_true_iff [Hm | Hm]; [left; by eapply IH1 | right; by eapply IH2].
Qed.

Lemma is_space_lower c : is_space c = true -> sre_lower c = c.
Proof.
  unfold is_space, sre_lower. intros H.
  rewrite !orb_true_iff, !andb_true_iff, !N.leb_le, !N.eqb_eq in H.
  repeat match goal with
         | |- context [if ?b then _ else _] => destruct b eqn:?
         end; try done;
    rewrite ?andb_true_iff, ?negb_true_iff, ?N.leb_le, ?N.eqb_eq, ?N.eqb_neq in *;
    lia.
Qed.

Lemma solid_lit_chr flags p c :
  solid_lit p = true -> chr_ok flags p c = true -> is_space c = false.
Proof.
  unfold solid_lit, chr_ok, chr_ignorecase.
  intros [[Hp Hlo]%andb_true_iff Hfix]%andb_true_iff Hc.
  apply negb_true_iff in Hp, Hlo.
  destruct (is_space c) eqn:Hs; [exfalso | done].
  destruct flags.
  - rewrite (is_space_lower c Hs) in Hc. apply orb_true_iff in Hc as [Hc | Hc].
    + apply N.eqb_eq in Hc. congruence.
    + apply existsb_exists in Hc as (x & Hin & ->%N.eqb_eq).
      rewrite forallb_forall in Hfix. specialize (Hfix _ Hin).
      by rewrite Hs in Hfix.
  - apply N.eqb_eq in Hc. congruence.
Qed.

Lemma first_solid_matches flags r bos m rest :
  first_solid r = true -> matches flags r bos m rest ->
  exists c m', m = c :: m' /\ is_space c = false.
Proof.
  revert bos m rest.
  induction r as [| | |p|cs|cs|cs|r1 IH1 r2 IH2|r1 IH1 r2 IH2];
    intros bos m rest; simpl; try done.
  - intros Hp (c & -> & Hc). exists c, []. split; [done|]. by eapply solid_lit_chr.
  - intros H1 (m1 & m2 & -> & Hm1 & _).
    destruct (IH1 _ _ _ H1 Hm1) as (c & m' & -> & Hc). by exists c, (m' ++ m2).
  - intros [H1 H2]%andb_true_iff [Hm | Hm]; [by eapply IH1 | by eapply IH2].
Qed.

Lemma last_solid_matches flags r bos m rest :
  last_solid r = true -> matches flags r bos m rest ->
  exists m' c, m = m' ++ [c] /\ is_space c = false.
Proof.
  revert bos m rest.
  induction r as [| | |p|cs|cs|cs|r1 IH1 r2 IH2|r1 IH1 r2 IH2];
    intros bos m rest; simpl; try done.
  - intros Hp (c & -> & Hc). exists [], c. split; [done|]. by eapply solid_lit_chr.
  - intros H2 (m1 & m2 & -> & _ & Hm2).
    destruct (IH2 _ _ _ H2 Hm2) as (m' & c & -> & Hc).
    exists (m1 ++ m'), c. by rewrite <- app_assoc.
  - intros [H1 H2]%andb_true_iff [Hm | Hm]; [by eapply IH1 | by eapply IH2].
Qed.

Lemma solid_matches flags r bos m rest :
  first_solid r = true -> last_solid r = true ->
  matches flags r bos m rest -> solid m.
Proof.
  intros Hf Hl Hm.
  destruct (first_solid_matches _ _ _ _ _ Hf Hm) as (c & m' & E & Hc).
  destruct (last_solid_matches _ _ _ _ _ Hl Hm) as (m'' & c' & E' & Hc').
  subst m. unfold solid.
  assert (rev (c :: m') = c' :: rev m'') as -> by (by rewrite E', rev_app_distr).
  by rewrite Hc, Hc'.
Qed.

Lemma lstrip_suffix s : exists a, s = a ++ lstrip s.
Proof.
  induction s as [|c s [a IH]]; simpl; [by exists []|].
  destruct (is_space c); [|by exists []].
  exists (c :: a). simpl. by rewrite <- IH.
Qed.

Lemma strip_infix s : exists a b, s = a ++ strip s ++ b.
Proof.
  unfold strip, rstrip.
  destruct (lstrip_suffix s) as [a Ha].
  destruct (lstrip_suffix (rev (lstrip s))) as [b Hb].
  exists a, (rev b). rewrite <- rev_app_distr, <- Hb, rev_involutive. done.
Qed.

(** A pattern without anchors whose matches begin and end with something
    other than white space finds in the stripped line what it finds in the
    line. *)
Lemma re_search_strip flags r line :
  anchor_free r = true -> first_solid r = true -> last_solid r = true ->
  re_search flags r (strip line) = re_search flags r line.
Proof.
  intros Ha Hf Hl. apply eq_true_iff_eq. rewrite !re_search_spec. split.
  - intros (pre & m & post & E & Hm).
    destruct (strip_infix line) as (a & b & Hline).
    exists (a ++ pre), m, (post ++ b). split.
    + rewrite Hline at 1. rewrite E. by rewrite <- !app_assoc.
    + by eapply matches_anchor_free.
  - intros (pre & m & post & E & Hm).
    assert (contains m (strip line)) as Hc.
    { apply contains_strip; [by eapply solid_matches|].
      apply contains_spec. by exists pre, post. }
    apply contains_spec in Hc as (pre' & post' & E').
    exists pre', m, post'. split; [done|]. by eapply matches_anchor_free.
Qed.

Lemma decision_markers_solid :
  forallb (fun r => anchor_free r && first_solid r && last_solid r)
          decision_markers = true.
Proof. reflexivity. Qed.

(** ** Decisions *)

Lemma marker_loop_existsb markers line :
  marker_loop markers line
  = existsb (fun marker => re_search IGNORECASE marker line) markers.
Proof.
  induction markers as [|m ms IH]; simpl; [done|].
  by destruct (re_search IGNORECASE m line).
Qed.

(** The markers find in the trimmed line what they find in the line. *)
Lemma decision_markers_strip line :
  existsb (fun marker => re_search IGNORECASE marker (strip line)) decision_markers
  = existsb (fun marker => re_search IGNORECASE marker line) decision_markers.
Proof.
  pose proof decision_markers_solid as H. revert H.
  generalize decision_markers. intros rs.
  induction rs as [|r rs IH]; simpl; [done|].
  intros [[[Ha Hf]%andb_true_iff Hl]%andb_true_iff H]%andb_true_iff.
  rewrite re_search_strip by done. by rewrite IH.
Qed.

Lemma decisions_loop_spec lines decisions :
  decisions_loop lines decisions
  = decisions ++ map strip (filter qualifies lines).
Proof.
  revert decisions. induction lines as [|l lines IH]; intros decisions.
  - simpl. by rewrite app_nil_r.
  - cbn [decisions_loop]. cbv zeta.
    assert (qualifies l
            = ((20 <? len (strip l))%Z && (len (strip l) <? 500)%Z
               && marker_loop decision_markers (strip l))) as Hq.
    { unfold qualifies. by rewrite marker_loop_existsb, decision_markers_strip. }
    rewrite filter_cons.
    destruct ((20 <? len (strip l))%Z && (len (strip l) <? 500)%Z),
      (marker_loop decision_markers (strip l)); cbn [andb] in Hq;
      rewrite IH;
      destruct (decide (qualifies l)) as [Hd|Hd]; rewrite Hq in Hd;
      try done; try (by destruct Hd).
    by rewrite <- app_assoc.
Qed.

(** C7. [extract_decisions] returns at most 20 entries, and they are the
    first 20 qualifying lines, trimmed, in order of occurrence: an entry
    appears if and only if it is among them. *)
Theorem extract_decisions_first_20 (text : str) :
  extract_decisions text = decisions_spec text
  /\ length (extract_decisions text) <= 20
  /\ (forall i entry,
        extract_decisions text !! i = Some entry <->
        i < 20 /\ map strip (filter qualifies (split_nl text)) !! i = Some entry).
Proof.
  assert (extract_decisions text = decisions_spec text) as Heq.
  { unfold extract_decisions, decisions_spec. by rewrite decisions_loop_spec. }
  split; [done|]. rewrite Heq. unfold decisions_spec. split.
  - rewrite length_take. lia.
  - intros i entry. rewrite lookup_take_Some. tauto.
Qed.

(** ** The verbatim window *)

Lemma slice_bound_le n i : slice_bound n i <= n.
Proof. unfold slice_bound. destruct (Z.ltb_spec i 0); lia. Qed.

Lemma slice_bound_last n k : (0 < k)%Z -> slice_bound n (- k) = n - Z.to_nat k.
Proof. intros Hk. unfold slice_bound. destruct (Z.ltb_spec (- k) 0); lia. Qed.

(** [-0] is [0]: the bound is the start of the sequence, not its end. *)
Lemma slice_bound_minus_zero n : slice_bound n (- 0) = 0.
Proof. unfold slice_bound. simpl. lia. Qed.

(** For a count of at least one, the recent messages are the last
    [verbatim_count] ones, or all when there are fewer. *)
Lemma recent_of_last (verbatim_count : Z) (messages : list message) :
  (0 < verbatim_count)%Z ->
  recent_of verbatim_count messages
  = drop (length messages - Z.to_nat verbatim_count) messages
  /\ len (recent_of verbatim_count messages)
     = Z.min verbatim_count (len messages).
Proof.
  intros Hk. unfold recent_of, slice_from, len.
  rewrite slice_bound_last by done. split; [done|].
  rewrite length_drop. lia.
Qed.

(** The split loses and repeats nothing, whatever the count. *)
Lemma older_recent (verbatim_count : Z) (messages : list message) :
  older_of verbatim_count messages ++ recent_of verbatim_count messages
  = messages.
Proof.
  unfold older_of, recent_of, slice_to, slice_from, len.
  destruct (Z.ltb_spec verbatim_count (Z.of_nat (length messages))) as [Hlt|Hge].
  - apply take_drop.
  - simpl. replace (slice_bound (length messages) (- verbatim_count)) with 0.
    + done.
    + unfold slice_bound.
      destruct (Z.ltb_spec (- verbatim_count) 0); lia.
Qed.


(** With a count of zero, every message is recent and nothing is older. *)
Lemma recent_of_zero (messages : list message) :
  older_of 0 messages = [] /\ recent_of 0 messages = messages.
Proof.
  assert (recent_of 0 messages = messages) as Hr.
  { unfold recent_of, slice_from. by rewrite slice_bound_minus_zero. }
  split; [|done].
  pose proof (older_recent 0 messages) as H. rewrite Hr in H.
  apply (f_equal length) in H. rewrite length_app in H.
  destruct (older_of 0 messages); [done | simpl in H; lia].
Qed.

(** [generate_handoff_standard] renders the last 30 messages, or all when
    there are fewer. *)
Lemma standard_recent_last (data : export) :
  standard_recent data = drop (length (messages data) - 30) (messages data)
  /\ len (standard_recent data)
     = Z.min VERBATIM_MESSAGE_COUNT (len (messages data)).
Proof.
  unfold standard_recent, slice_from, len, VERBATIM_MESSAGE_COUNT.
  rewrite slice_bound_last by done. split; [done|].
  rewrite length_drop. lia.
Qed.


(** ** Runs of the generators *)

Lemma pure_Ok_bind {A B} (a : A) (f : A -> io B) : pure (Ok a) ≫= f = f a.
Proof. unfold pure, mbind, io_bind. by destruct (f a). Qed.

Lemma pure_Err_bind {A B} (e : exn) (f : A -> io B) :
  pure (Err e) ≫= f = pure (Err e).
Proof. done. Qed.

Lemma emit_bind {B} (ev : event) (f : unit -> io B) :
  emit ev ≫= f = (ev :: (f tt).1, (f tt).2).
Proof. unfold emit, mbind, io_bind. by destruct (f tt). Qed.

Lemma read_reply_Err reply e : read_reply reply = Err e -> summarization_error e.
Proof.
  destruct reply as [result| |]; simpl.
  - destruct (_ ≫= _); [done|]. by intros [= <-].
  - by intros [= <-].
  - by intros [= <-].
Qed.

Section Runs.
Variable uni_isalnum : N -> bool.
Variable py_repr : json -> str.
Variable py_lower : str -> str.
Variable urlopen : api_request -> http_reply.
Variable generated : str.
Variable date_str : str.
Variable mode_answer : str.



(** [generate_handoff_smart] once the count is read from the
    configuration. *)
Lemma generate_handoff_smart_count (data : export) (api_key config v : json)
    (verbatim_count : Z) :
  smart_mode_get config (lit_str "verbatim_recent_messages")
                 (JInt VERBATIM_MESSAGE_COUNT) = Ok v ->
  as_int v = Ok verbatim_count ->
  generate_handoff_smart py_repr urlopen generated data api_key config
  = (let older := older_of verbatim_count (messages data) in
     let recent := recent_of verbatim_count (messages data) in
     ai_summary ← (if bool_decide (older = []) then mret (JStr [])
                   else generate_smart_summary urlopen older api_key config);
     pure (join_lines (smart_lines py_repr generated data older recent ai_summary))).
Proof.
  intros Hv Hn. unfold generate_handoff_smart.
  by rewrite Hv, pure_Ok_bind, Hn, pure_Ok_bind.
Qed.

(** The one call [generate_smart_summary] issues, and what comes of it. *)
Lemma generate_smart_summary_call (older : list message)
    (api_key config model max_tokens : json) :
  smart_mode_get config (lit_str "model") (JStr SMART_MODEL) = Ok model ->
  smart_mode_get config (lit_str "max_output_tokens") (JInt SMART_MAX_TOKENS)
  = Ok max_tokens ->
  let req := ApiRequest api_key model max_tokens
               (PROMPT_HEAD ++ conversation_text older ++ PROMPT_TAIL) in
  generate_smart_summary urlopen older api_key config
  = ([ApiCall req], read_reply (urlopen req)).
Proof.
  intros Hm Hx. unfold generate_smart_summary.
  rewrite Hm, pure_Ok_bind, Hx, pure_Ok_bind.
  unfold call_claude_api. by rewrite emit_bind.
Qed.

Lemma render_content_spec (text : str) : render_content text = shown_spec text.
Proof.
  unfold render_content, shown_spec, truncation_marker, slice_to.
  destruct (Z.ltb_spec 8000 (len text)) as [Hlt|Hge].
  - rewrite decide_False by lia. do 2 f_equal.
    unfold slice_bound, len in *. simpl. lia.
  - by rewrite decide_True by lia.
Qed.

Lemma render_turn_spec (t : message) : render_turn t = turn_block_spec t.
Proof. unfold render_turn, turn_block_spec. by rewrite render_content_spec. Qed.

Lemma map_render_turn_spec (window : list message) :
  map render_turn window = map turn_block_spec window.
Proof. apply map_ext. intros t. apply render_turn_spec. Qed.

(** The lines of both generators hold the blocks of the verbatim window
    turn by turn, each turn over 8000 characters as its first 8000
    characters followed by the marker with the original character count,
    and each other turn in full: a turn of 9000 characters as 8000
    characters and the marker stating 9,000. *)
Theorem verbatim_lines_truncated (data : export) (older recent : list message)
    (ai_summary : json) :
  (exists before,
     standard_lines uni_isalnum py_repr generated data
     = before ++ concat (map turn_block_spec (standard_recent data)) ++ footer)
  /\ (exists before,
        smart_lines py_repr generated data older recent ai_summary
        = before ++ concat (map turn_block_spec recent) ++ footer)
  /\ (forall text, (8000 < len text)%Z ->
        shown_spec text
        = take (Z.to_nat 8000) text ++ truncation_marker (len text)
        /\ len (take (Z.to_nat 8000) text) = 8000%Z)
  /\ (forall text, (len text <= 8000)%Z -> shown_spec text = text)
  /\ truncation_marker 9000
     = [NL; NL] ++ lit_str "*[Truncated - original was 9,000 chars]*".
Proof.
  split; [|split; [|split; [|split]]].
  - unfold standard_lines. cbv zeta. rewrite map_render_turn_spec.
    match goal with
    | |- exists _, ?h ++ ?q ++ ?f ++ ?d ++ ?i ++ _ = _ =>
        exists (h ++ q ++ f ++ d ++ i)
    end.
    rewrite <- !(app_assoc (A:=json)). reflexivity.
  - unfold smart_lines. rewrite map_render_turn_spec.
    match goal with
    | |- exists _, ?h ++ ?q ++ ?s ++ ?i ++ _ = _ =>
        exists (h ++ q ++ s ++ i)
    end.
    rewrite <- !(app_assoc (A:=json)). reflexivity.
  - intros text Hlt. unfold shown_spec. rewrite decide_False by lia.
    split; [done|]. unfold len in *. rewrite length_take. lia.
  - intros text Hle. unfold shown_spec. by rewrite decide_True.
  - by vm_compute.
Qed.



(** When [call_claude_api] raises (a non-success status, a time-out or any
    other transport failure, a reply without [content], without a first
    fragment or without its [text]), [generate_handoff_smart] raises that
    exception and so does [main]: the run ends after the call, no file is
    written and the standard generator is not entered. *)
Theorem summarization_failure_is_fatal (input config : json) (data : export)
    (api_key v model max_tokens : json) (verbatim_count : Z) (e : exn) :
  parse_json_export input = Ok data ->
  get_mode mode_answer config = Ok Smart ->
  py_get config (lit_str "anthropic_api_key") (JStr []) = Ok api_key ->
  smart_mode_get config (lit_str "verbatim_recent_messages")
                 (JInt VERBATIM_MESSAGE_COUNT) = Ok v ->
  as_int v = Ok verbatim_count ->
  smart_mode_get config (lit_str "model") (JStr SMART_MODEL) = Ok model ->
  smart_mode_get config (lit_str "max_output_tokens") (JInt SMART_MAX_TOKENS)
  = Ok max_tokens ->
  older_of verbatim_count (messages data) <> [] ->
  read_reply
    (urlopen (ApiRequest api_key model max_tokens
                (PROMPT_HEAD
                 ++ conversation_text (older_of verbatim_count (messages data))
                 ++ PROMPT_TAIL)))
  = Err e ->
  exists req,
    summarization_error e
    /\ generate_handoff_smart py_repr urlopen generated data api_key config
       = ([ApiCall req], Err e)
    /\ main uni_isalnum py_repr py_lower urlopen generated date_str mode_answer
            input config
       = ([RunSmart; ApiCall req], Err e)
    /\ (forall ev,
          ev ∈ (main uni_isalnum py_repr py_lower urlopen generated date_str
                     mode_answer input config).1 ->
          ev <> RunStandard /\ forall f c, ev <> WriteFile f c).
Proof.
  intros Hp Hmode Hkey Hv Hn Hmodel Hmax Hold Hfail.
  eexists. split; [by eapply read_reply_Err|].
  assert (generate_handoff_smart py_repr urlopen generated data api_key config
          = ([ApiCall (ApiRequest api_key model max_tokens
                         (PROMPT_HEAD
                          ++ conversation_text
                               (older_of verbatim_count (messages data))
                          ++ PROMPT_TAIL))], Err e)) as Hsmart.
  { rewrite (generate_handoff_smart_count _ _ _ _ _ Hv Hn). cbv zeta.
    rewrite bool_decide_eq_false_2 by done.
    rewrite (generate_smart_summary_call _ _ _ _ _ Hmodel Hmax). cbv zeta.
    by rewrite Hfail. }
  assert (main uni_isalnum py_repr py_lower urlopen generated date_str
               mode_answer input config
          = ([RunSmart;
              ApiCall (ApiRequest api_key model max_tokens
                         (PROMPT_HEAD
                          ++ conversation_text
                               (older_of verbatim_count (messages data))
                          ++ PROMPT_TAIL))], Err e)) as Hmain.
  { unfold main. rewrite Hp, pure_Ok_bind, Hmode, pure_Ok_bind.
    rewrite Hkey, pure_Ok_bind, emit_bind, Hsmart. done. }
  split; [exact Hsmart|]. split; [exact Hmain|].
  rewrite Hmain. simpl. intros ev Hev.
  apply elem_of_cons in Hev as [-> | Hev]; [done|].
  apply list_elem_of_singleton in Hev as ->. done.
Qed.

(** C3, where the code departs from it. With a configured count of zero,
    [generate_handoff_smart] takes every message as recent: for a
    conversation of one turn it renders that turn, more than the bound
    [min(0, 1)] allows, and summarizes nothing. *)
Theorem zero_verbatim_count_renders_all :
  recent_of 0 [greeting_turn] = [greeting_turn]
  /\ (Z.min 0 (len [greeting_turn]) < len (recent_of 0 [greeting_turn]))%Z
  /\ generate_handoff_smart py_repr urlopen generated greeting_parsed
       (JStr (lit_str "key"))
       (JDict [ (lit_str "smart_mode",
                 JDict [ (lit_str "verbatim_recent_messages", JInt 0) ]) ])
     = ([], join_lines
              (smart_lines py_repr generated greeting_parsed []
                           [greeting_turn] (JStr []))).
Proof.
  split; [done|]. split; [done|].
  erewrite generate_handoff_smart_count; [|by vm_compute|done].
  done.
Qed.

End Runs.

(** ** Sample runs *)

(** Scenario A: a turn whose whole text is the compaction notice is dropped. *)
Example compaction_notice_dropped :
  parse_json_export
    (JDict [ (lit_str "chat_messages",
              JList [ outline_request;
                      JDict [ (lit_str "text",
                               JStr (GLYPH_STAR
                                     :: lit_str " Compacting conversation...")) ];
                      outline_reply ]) ])
  = Ok (Export (JStr (lit_str "Unknown Chat")) (JStr []) (JStr []) (JStr [])
               [request_turn; reply_turn]).
Proof. by vm_compute. Qed.

Example findall_paths :
  extract_file_paths sample_isalnum
    (lit_str "see src/handoff.py and /usr/lib/x.so, then C:\tmp\a.txt or //cdn/x.js")
  = [ lit_str "/handoff.py"; lit_str "/usr/lib/x.so"; lit_str "C:\tmp\a.txt";
      lit_str "lib/x.so"; lit_str "src/handoff.py" ].
Proof. by vm_compute. Qed.

Lemma format_error_iff_containers_absent_witness :
  dict_lookup (lit_str "chat_messages") [] = None
  /\ dict_lookup (lit_str "messages") [] = None
  /\ parse_json_export_run (JDict []) = ([], Err (ValueError FORMAT_ERROR))
  /\ (is_Some (dict_lookup (lit_str "chat_messages") greeting_fields)
      \/ is_Some (dict_lookup (lit_str "messages") greeting_fields))
  /\ no_value_error (parse_json_export (JDict greeting_fields)).
Proof.
  assert (dict_lookup (lit_str "chat_messages") [] = None) as H1 by reflexivity.
  assert (dict_lookup (lit_str "messages") [] = None) as H2 by reflexivity.
  assert (is_Some (dict_lookup (lit_str "chat_messages") greeting_fields)
          \/ is_Some (dict_lookup (lit_str "messages") greeting_fields)) as H3
    by (left; vm_compute; eauto).
  split; [exact H1|]. split; [exact H2|].
  split; [exact (proj1 (format_error_iff_containers_absent []) H1 H2)|].
  split; [exact H3|].
  exact (proj1 (proj2 (format_error_iff_containers_absent greeting_fields)) H3).
Defined.

Lemma extract_file_paths_sorted_set_witness :
  reverse (elements (found_paths sample_isalnum (lit_str "see src/handoff.py")))
    ≡ₚ elements (found_paths sample_isalnum (lit_str "see src/handoff.py"))
  /\ filter_and_sort
       (reverse (elements (found_paths sample_isalnum (lit_str "see src/handoff.py"))))
     = extract_file_paths sample_isalnum (lit_str "see src/handoff.py").
Proof.
  assert (reverse (elements (found_paths sample_isalnum (lit_str "see src/handoff.py")))
            ≡ₚ elements (found_paths sample_isalnum (lit_str "see src/handoff.py")))
    as Hp by apply reverse_Permutation.
  split; [exact Hp|].
  exact (proj1 (proj2 (proj2 (proj2
           (extract_file_paths_sorted_set sample_isalnum
              (lit_str "see src/handoff.py"))))) _ Hp).
Defined.

Lemma verbatim_lines_truncated_sample :
  (8000 < len (replicate (Z.to_nat 9000) 97%N))%Z
  /\ shown_spec (replicate (Z.to_nat 9000) 97%N)
     = take (Z.to_nat 8000) (replicate (Z.to_nat 9000) 97%N) ++ truncation_marker 9000
  /\ (len (lit_str "Here is the outline") <= 8000)%Z
  /\ shown_spec (lit_str "Here is the outline") = lit_str "Here is the outline".
Proof.
  assert (8000 < len (replicate (Z.to_nat 9000) 97%N))%Z as H1 by (vm_compute; reflexivity).
  assert (len (lit_str "Here is the outline") <= 8000)%Z as H2
    by (vm_compute; discriminate).
  pose proof (verbatim_lines_truncated sample_isalnum sample_repr sample_generated
                two_turn_parsed [] [reply_turn] (JStr []))
    as (_ & _ & Hlong & Hshort & _).
  split; [exact H1|]. split; [exact (proj1 (Hlong _ H1))|].
  split; [exact H2|]. exact (Hshort _ H2).
Defined.



Lemma summarization_failure_is_fatal_witness :
  parse_json_export two_turn_export = Ok two_turn_parsed
  /\ get_mode sample_answer one_recent_config = Ok Smart
  /\ py_get one_recent_config (lit_str "anthropic_api_key") (JStr [])
     = Ok (JStr (lit_str "key"))
  /\ smart_mode_get one_recent_config (lit_str "verbatim_recent_messages")
                    (JInt VERBATIM_MESSAGE_COUNT) = Ok (JInt 1)
  /\ as_int (JInt 1) = Ok 1%Z
  /\ smart_mode_get one_recent_config (lit_str "model") (JStr SMART_MODEL)
     = Ok (JStr SMART_MODEL)
  /\ smart_mode_get one_recent_config (lit_str "max_output_tokens")
                    (JInt SMART_MAX_TOKENS) = Ok (JInt SMART_MAX_TOKENS)
  /\ older_of 1 (messages two_turn_parsed) <> []
  /\ read_reply
       (timed_out (ApiRequest (JStr (lit_str "key")) (JStr SMART_MODEL)
                     (JInt SMART_MAX_TOKENS)
                     (PROMPT_HEAD
                      ++ conversation_text (older_of 1 (messages two_turn_parsed))
                      ++ PROMPT_TAIL)))
     = Err (ApiCallFailed (OtherError (lit_str "timed out")))
  /\ exists req,
       main sample_isalnum sample_repr sample_lower timed_out sample_generated
            sample_date sample_answer two_turn_export one_recent_config
       = ([RunSmart; ApiCall req],
          Err (ApiCallFailed (OtherError (lit_str "timed out")))).
Proof.
  assert (parse_json_export two_turn_export = Ok two_turn_parsed) as H1
    by (vm_compute; reflexivity).
  assert (get_mode sample_answer one_recent_config = Ok Smart) as H2
    by (vm_compute; reflexivity).
  assert (py_get one_recent_config (lit_str "anthropic_api_key") (JStr [])
          = Ok (JStr (lit_str "key"))) as H3 by (vm_compute; reflexivity).
  assert (smart_mode_get one_recent_config (lit_str "verbatim_recent_messages")
                         (JInt VERBATIM_MESSAGE_COUNT) = Ok (JInt 1)) as H4
    by (vm_compute; reflexivity).
  assert (as_int (JInt 1) = Ok 1%Z) as H5 by reflexivity.
  assert (smart_mode_get one_recent_config (lit_str "model") (JStr SMART_MODEL)
          = Ok (JStr SMART_MODEL)) as H6 by (vm_compute; reflexivity).
  assert (smart_mode_get one_recent_config (lit_str "max_output_tokens")
                         (JInt SMART_MAX_TOKENS) = Ok (JInt SMART_MAX_TOKENS))
    as H7 by (vm_compute; reflexivity).
  assert (older_of 1 (messages two_turn_parsed) <> []) as H8
    by (vm_compute; discriminate).
  assert (read_reply
            (timed_out (ApiRequest (JStr (lit_str "key")) (JStr SMART_MODEL)
                          (JInt SMART_MAX_TOKENS)
                          (PROMPT_HEAD
                           ++ conversation_text
                                (older_of 1 (messages two_turn_parsed))
                           ++ PROMPT_TAIL)))
          = Err (ApiCallFailed (OtherError (lit_str "timed out")))) as H9
    by reflexivity.
  destruct (summarization_failure_is_fatal sample_isalnum sample_repr
              sample_lower timed_out sample_generated sample_date sample_answer
              two_turn_export one_recent_config two_turn_parsed
              (JStr (lit_str "key")) (JInt 1) (JStr SMART_MODEL)
              (JInt SMART_MAX_TOKENS) 1 _ H1 H2 H3 H4 H5 H6 H7 H8 H9)
    as (req & _ & _ & Hmain & _).
  repeat (split; [assumption|]). by exists req.
Defined.

(** The first pattern family that needs backtracking: the greedy run of
    path characters gives back up to the last dot. *)
Example findall_backtracks :
  re_findall NOFLAGS
    (cats [lit "/"; Plus (path_chars sample_isalnum); lit ".";
           Plus (is_word sample_isalnum)])
    (lit_str "open /var/log/app.2024.log. Then /etc/hosts and /x.y")
  = [lit_str "/var/log/app.2024.log"; lit_str "/x.y"].
Proof. by vm_compute. Qed.

Example decisions_found :
  extract_decisions
    (lit_str "Intro
   We decided to keep the repository pattern everywhere.   
TODO: short
the next line mentions no marker at all, though it is long enough
Note: the MIGRATION runs before the server starts")
  = [ lit_str "We decided to keep the repository pattern everywhere.";
      lit_str "Note: the MIGRATION runs before the server starts" ].
Proof. by vm_compute. Qed.

(** Scenario C for the standard generator: five turns, all in the window. *)
Example standard_five_turns :
  standard_recent five_turn_parsed = messages five_turn_parsed.
Proof. by vm_compute. Qed.

(** * Further properties *)

(** ** More on the noise filter *)

(** X1. [filter_noise] keeps exactly the lines that no noise pattern
    matches, in their order: when a line is kept, the lines of the result
    are the kept lines; when none is, the result is the empty text; and the
    kept lines are a subsequence of the lines of the input. *)
Theorem filter_noise_keeps_clean_lines (text : str) :
  (kept_lines text <> [] -> split_nl (filter_noise text) = kept_lines text)
  /\ (kept_lines text = [] -> filter_noise text = [])
  /\ kept_lines text `sublist_of` split_nl text.
Proof.
  split; [|split].
  - intros Hne. rewrite split_nl_filter_noise. by rewrite bool_decide_eq_false_2.
  - intros Hk. unfold filter_noise. fold (kept_lines text). by rewrite Hk.
  - apply sublist_filter.
Qed.

Lemma filter_all_true {A} (P : A -> bool) (l : list A) :
  (forall x, x ∈ l -> P x = true) -> filter P l = l.
Proof.
  induction l as [|x l IH]; [done|]. intros H.
  rewrite filter_cons, decide_True.
  - rewrite IH; [done|]. intros y Hy. apply H. by right.
  - apply Is_true_true, H. by left.
Qed.

(** X2. A text none of whose lines a noise pattern matches comes back from
    [filter_noise] as it went in. *)
Theorem filter_noise_clean_text (text : str) :
  (forall line, line ∈ split_nl text -> is_noise_line line = false) ->
  filter_noise text = text.
Proof.
  intros Hclean. unfold filter_noise. rewrite filter_all_true.
  - apply join_split_nl.
  - intros line Hl. by rewrite (Hclean line Hl).
Qed.

Lemma join_filter_length (P : str -> bool) (sep : str) (ls : list str) :
  length (join sep (filter P ls)) <= length (join sep ls).
Proof.
  induction ls as [|l ls IH]; [done|].
  assert (length (join sep ls) <= length (join sep (l :: ls))) as Hstep.
  { destruct ls as [|l' ls]; simpl; [lia|]. rewrite !length_app. lia. }
  rewrite filter_cons. destruct (decide (P l)); [|lia].
  destruct (filter P ls) as [|k ks] eqn:Hf.
  - destruct ls as [|l' ls]; simpl; [lia|]. rewrite !length_app. lia.
  - destruct ls as [|l' ls]; [by rewrite filter_nil in Hf|].
    change (join sep (l :: k :: ks)) with (l ++ sep ++ join sep (k :: ks)).
    change (join sep (l :: l' :: ls)) with (l ++ sep ++ join sep (l' :: ls)).
    rewrite !length_app. lia.
Qed.

(** X3. [filter_noise] never makes a text longer. *)
Theorem filter_noise_not_longer (text : str) :
  length (filter_noise text) <= length text.
Proof.
  unfold filter_noise. rewrite <- (join_split_nl text) at 2.
  apply join_filter_length.
Qed.

Lemma sre_lower_cases c :
  sre_lower c = c
  \/ (97 <= sre_lower c <= 122)%N \/ (224 <= sre_lower c <= 254)%N.
Proof.
  unfold sre_lower.
  destruct ((65 <=? c) && (c <=? 90))%N eqn:H1.
  { apply andb_true_iff in H1 as [?%N.leb_le ?%N.leb_le]. lia. }
  destruct ((192 <=? c) && (c <=? 222) && negb (c =? 215))%N eqn:H2.
  { apply andb_true_iff in H2 as [[?%N.leb_le ?%N.leb_le]%andb_true_iff _]. lia. }
  destruct (c =? 304)%N; [lia|]. destruct (c =? 8490)%N; [lia|]. by left.
Qed.

Lemma chr_ok_uncased flags p c :
  uncased p = true -> chr_ok flags p c = true -> c = p.
Proof.
  unfold uncased, chr_ok, chr_ignorecase.
  intros [Hp%N.eqb_eq Hr%negb_true_iff]%andb_true_iff.
  apply orb_false_iff in Hr as [Hr1 Hr2].
  destruct flags; [|by intros ?%N.eqb_eq].
  rewrite Hp. unfold ignorecase_fixes.
  assert ((p =? 105)%N = false) as ->.
  { apply N.eqb_neq. intros ->. done. }
  assert ((p =? 115)%N = false) as ->.
  { apply N.eqb_neq. intros ->. done. }
  simpl. rewrite orb_false_r. intros Hc%N.eqb_eq.
  destruct (sre_lower_cases c) as [E | [E | E]]; [congruence | |];
    rewrite Hc in E; exfalso.
  - rewrite andb_false_iff, !N.leb_gt in Hr1. lia.
  - rewrite andb_false_iff, !N.leb_gt in Hr2. lia.
Qed.

Lemma chr_ok_letter_c flags c :
  chr_ok flags 99 c = true -> c = 99%N \/ c = 67%N.
Proof.
  unfold chr_ok, chr_ignorecase.
  destruct flags; [|intros Hc%N.eqb_eq; by left].
  change (sre_lower 99) with 99%N. change (ignorecase_fixes 99) with (@nil N).
  simpl. rewrite orb_false_r. intros Hc%N.eqb_eq. revert Hc. unfold sre_lower.
  destruct ((65 <=? c) && (c <=? 90))%N eqn:H1; [lia|].
  destruct ((192 <=? c) && (c <=? 222) && negb (c =? 215))%N eqn:H2.
  { apply andb_true_iff in H2 as [[?%N.leb_le ?%N.leb_le]%andb_true_iff _]. lia. }
  destruct (c =? 304)%N; [lia|]. destruct (c =? 8490)%N; [lia|]. by left.
Qed.

(** What a run of literals matches: as many characters, each matched by its
    literal. *)
Lemma matches_literals flags ws bos m rest :
  ws <> [] ->
  matches flags (cats (map Chr ws)) bos m rest ->
  Forall2 (fun p c => chr_ok flags p c = true) ws m.
Proof.
  revert bos m. induction ws as [|p ws IH]; [done|]. intros bos m _.
  destruct ws as [|q ws].
  - simpl. intros (c & -> & Hc). by repeat constructor.
  - change (cats (map Chr (p :: q :: ws)))
      with (Cat (Chr p) (cats (map Chr (q :: ws)))).
    intros (m1 & m2 & -> & (c & -> & Hc) & Hm2).
    constructor; [done|]. by eapply IH.
Qed.

(** X4. A line that a noise pattern matches bears one of four marks: the
    star glyph at its start, the elbow glyph, the letter c (in either case)
    at its start, or a closing parenthesis. A line with none of them is
    never dropped. *)
Theorem noise_line_marks (line : str) :
  is_noise_line line = true -> may_be_noise line = true.
Proof.
  unfold is_noise_line, NOISE_PATTERNS. cbn [existsb].
  rewrite !orb_true_iff.
  intros H. unfold may_be_noise. rewrite !orb_true_iff.
  repeat match goal with
         | H : _ \/ _ |- _ => destruct H as [H | H]
         end; try discriminate H;
    apply re_search_spec in H as (pre & m & post & -> & Hm).
  all: try (destruct Hm as (m1 & m2 & -> & [-> Hb] & (m3 & m4 & -> & (c & -> & Hc) & _));
            apply bool_decide_eq_true in Hb as ->;
            apply chr_ok_uncased in Hc as ->; [|done];
            left; left; left; reflexivity).
  all: try (destruct Hm as (m1 & m2 & -> & [-> Hb] & (m3 & m4 & -> & _
                            & (m5 & m6 & -> & (c & -> & Hc) & _)));
            apply chr_ok_uncased in Hc as ->; [|done];
            left; left; right; apply Is_true_true, contains_spec;
            exists (pre ++ m3), (m6 ++ post); by rewrite <- !app_assoc).
  - destruct Hm as (m1 & m2 & -> & [-> Hb] & Hm).
    apply bool_decide_eq_true in Hb as ->.
    apply matches_literals in Hm; [|done].
    inversion Hm as [|p c ws cs Hc _]; subst.
    left; right. simpl. apply chr_ok_letter_c in Hc as [-> | ->]; reflexivity.
  - destruct Hm as (m1 & m2 & -> & Hm & _).
    apply matches_literals in Hm; [|done].
    change (lit_str "thinking)") with (lit_str "thinking" ++ [41%N]) in Hm.
    apply Forall2_app_inv_l in Hm as (k1 & k2 & _ & Hk2 & ->).
    inversion Hk2 as [|p c ws cs Hc Hnil]; subst. inversion Hnil; subst.
    apply chr_ok_uncased in Hc as ->; [|done].
    right. apply Is_true_true, contains_spec.
    exists (pre ++ k1), (m2 ++ post). by rewrite <- !app_assoc.
Qed.

Lemma contains_strip_inv w s : contains w (strip s) -> contains w s.
Proof.
  rewrite !contains_spec. intros (pre & post & E).
  destruct (strip_infix s) as (a & b & Hs).
  exists (a ++ pre), (post ++ b).
  transitivity (a ++ strip s ++ b); [exact Hs|].
  rewrite E. by rewrite <- !app_assoc.
Qed.

(** X5. [is_noise_message] holds exactly of the contents that are shorter
    than 100 characters once trimmed and hold one of the four indicators;
    whether an indicator is looked for before or after trimming makes no
    difference. *)
Theorem is_noise_message_iff (content : str) :
  is_noise_message content = true <->
  (len (strip content) < 100)%Z
  /\ exists indicator,
       indicator ∈ noise_indicators /\ contains indicator content = true.
Proof.
  unfold is_noise_message. split.
  - destruct (Z.ltb_spec (len (strip content)) 100) as [Hlt|]; [|done].
    intros (ind & Hin & Hc)%existsb_exists. split; [done|].
    exists ind. split; [by apply list_elem_of_In|].
    apply Is_true_true, contains_strip_inv. by rewrite Hc.
  - intros [Hlt (ind & Hin & Hc)]. apply Z.ltb_lt in Hlt. rewrite Hlt.
    apply existsb_exists. exists ind. split; [by apply list_elem_of_In|].
    apply Is_true_true, contains_strip; [|by rewrite Hc].
    pose proof noise_indicators_solid as Hs. rewrite Forall_forall in Hs.
    by apply Hs.
Qed.

Lemma filter_all_false {A} (P : A -> bool) (l : list A) :
  (forall x, x ∈ l -> P x = false) -> filter P l = [].
Proof.
  induction l as [|x l IH]; [done|]. intros H.
  rewrite filter_cons, decide_False.
  - apply IH. intros y Hy. apply H. by right.
  - rewrite (H x) by (by left). by intros [].
Qed.

(** X6. A message whose every line is a noise line leaves no Turn:
    [parse_message] skips it. *)
Theorem all_noise_message_skipped (msg : json) (text : str) :
  extract_content_from_json msg = Ok (JStr text) ->
  (forall line, line ∈ split_nl text -> is_noise_line line = true) ->
  parse_message msg = Ok None.
Proof.
  intros He Hall. unfold parse_message. rewrite He. simpl.
  case_bool_decide; [done|].
  assert (filter_noise text = []) as ->.
  { unfold filter_noise. rewrite filter_all_false; [done|].
    intros line Hl. by rewrite (Hall line Hl). }
  done.
Qed.

(** ** More on the parser *)

Lemma join_values_strs (ss : list str) : join_values (map JStr ss) = Ok ss.
Proof. induction ss as [|s ss IH]; [done|]. simpl. by rewrite IH. Qed.

Lemma text_ok_str d :
  text_ok d = true ->
  exists s,
    (let text := default (JStr []) (dict_lookup (lit_str "text") d) in
     if truthy text then text else JStr []) = JStr s.
Proof.
  unfold text_ok. cbv zeta.
  destruct (default (JStr []) (dict_lookup (lit_str "text") d)) as [|b|n|f|s|l|d'];
    intros H.
  all: try (destruct (truthy _); [done | by exists []]).
  destruct (truthy (JStr s)); [by exists s | by exists []].
Qed.

Lemma fragment_ok_item item :
  fragment_ok item = true ->
  content_item item = map JStr (option_list (fragment_text item)).
Proof.
  destruct item as [|b|n|f|s|l|d]; simpl; intros H; try done.
  unfold text_ok in H.
  destruct (default (JStr []) (dict_lookup (lit_str "text") d)) as [|b|n|f|s|l|d'];
    try (by destruct (truthy _)).
  by destruct s.
Qed.

Lemma fragments_ok_items items :
  forallb fragment_ok items = true ->
  concat (map content_item items) = map JStr (omap fragment_text items).
Proof.
  induction items as [|item items IH]; [done|].
  simpl. intros [Hi Hr]%andb_true_iff.
  rewrite (fragment_ok_item _ Hi), (IH Hr), <- map_app. f_equal.
  unfold omap. simpl. by destruct (fragment_text item).
Qed.

(** A message of the format's shape gives a str content. *)
Lemma extract_content_ok d :
  message_ok (JDict d) = true ->
  exists text, extract_content_from_json (JDict d) = Ok (JStr text).
Proof.
  unfold message_ok. intros [Hc _]%andb_true_iff. cbv zeta in Hc.
  unfold extract_content_from_json. cbn [py_get mbind result_bind].
  set (c := default (JList []) (dict_lookup (lit_str "content") d)) in *.
  destruct (truthy c) eqn:Ht; cbn [negb].
  - destruct c as [| | | | |items|]; try done.
    apply fragments_ok_items in Hc as Hss.
    cbn [py_iter mbind result_bind]. rewrite Hss, join_values_strs.
    by eexists.
  - apply text_ok_str in Hc as (s & Hs). cbv zeta in Hs. rewrite Hs.
    by exists s.
Qed.

(** X7. [parse_message] raises nothing on a message of the shape the export
    format gives ([message_ok]). *)
Theorem parse_message_total (msg : json) :
  message_ok msg = true -> exists r, parse_message msg = Ok r.
Proof.
  destruct msg as [|b|n|f|s|l|d]; try done. intros Hok.
  destruct (extract_content_ok d Hok) as [text He].
  unfold parse_message. rewrite He.
  cbn [mbind result_bind str_method].
  case_bool_decide; [by eexists|]. case_bool_decide; [by eexists|].
  destruct (is_noise_message _); [by eexists|].
  unfold message_ok in Hok. apply andb_true_iff in Hok as [_ Hc].
  cbn [py_get mbind result_bind].
  destruct (default (JStr []) (dict_lookup (lit_str "created_at") d));
    try done.
  by eexists.
Qed.

(** The loop ends without an exception exactly when no raw message raises,
    and then holds the survivors after what it started with. *)
Lemma parse_loop_ok raw acc :
  Forall (fun msg => exists r, parse_message msg = Ok r) raw ->
  parse_loop raw acc = (acc ++ omap survivor raw, None).
Proof.
  revert acc. induction raw as [|msg raw IH]; intros acc Hall; simpl.
  - by rewrite app_nil_r.
  - inversion Hall as [|? ? [r Hr] Hrest]; subst.
    unfold survivor at 1. rewrite Hr. destruct r as [t|].
    + rewrite IH by done. by rewrite <- app_assoc.
    + by apply IH.
Qed.

Lemma parse_loop_None raw acc :
  (parse_loop raw acc).2 = None ->
  Forall (fun msg => exists r, parse_message msg = Ok r) raw.
Proof.
  revert acc. induction raw as [|msg raw IH]; intros acc; simpl; [done|].
  destruct (parse_message msg) as [[t|]|e] eqn:Hm; simpl; [| |done].
  - intros H. constructor; [by eexists | by eapply IH].
  - intros H. constructor; [by eexists | by eapply IH].
Qed.

(** The first raw message that raises ends the loop, with its exception and
    the Turns built before it. *)
Lemma parse_loop_Err good bad rest acc e :
  Forall (fun msg => exists r, parse_message msg = Ok r) good ->
  parse_message bad = Err e ->
  parse_loop (good ++ bad :: rest) acc = (acc ++ omap survivor good, Some e).
Proof.
  revert acc. induction good as [|msg good IH]; intros acc Hall Hbad; simpl.
  - rewrite Hbad. by rewrite app_nil_r.
  - inversion Hall as [|? ? [r Hr] Hrest]; subst.
    unfold survivor at 1. rewrite Hr. destruct r as [t|].
    + rewrite IH by done. by rewrite <- app_assoc.
    + by apply IH.
Qed.

Lemma omap_length_le {A B} (f : A -> option B) (l : list A) :
  length (omap f l) <= length l.
Proof.
  induction l as [|x l IH]; [done|]. unfold omap in *. simpl.
  destruct (f x); simpl; lia.
Qed.

Lemma py_get_container d :
  (fallback ← py_get (JDict d) (lit_str "messages") (JList []);
   raw ← py_get (JDict d) (lit_str "chat_messages") fallback;
   py_iter raw) = py_iter (container d).
Proof. reflexivity. Qed.

(** X8. When [parse_json_export] returns, its messages are the survivors of
    the entries of the container, in order - what ['chat_messages'] holds
    when the field is there, else what ['messages'] holds - so there are no
    more Turns than entries; the name and the summary are the fields of the
    export, or their defaults. *)
Theorem parse_json_export_shape (d : list (str * json)) (e : export) :
  parse_json_export (JDict d) = Ok e ->
  exists raw_messages,
    py_iter (container d) = Ok raw_messages
    /\ messages e = omap survivor raw_messages
    /\ length (messages e) <= length raw_messages
    /\ name e = default (JStr (lit_str "Unknown Chat"))
                        (dict_lookup (lit_str "name") d)
    /\ summary e = default (JStr []) (dict_lookup (lit_str "summary") d).
Proof.
  unfold parse_json_export, parse_json_export_run.
  destruct (validate (JDict d)); [|done].
  rewrite py_get_container.
  destruct (py_iter (container d)) as [raw|]; [|done].
  destruct (parse_loop raw []) as [built [e'|]] eqn:Hloop; [done|].
  assert ((parse_loop raw []).2 = None) as Hnone by (by rewrite Hloop).
  apply parse_loop_None in Hnone. rewrite parse_loop_ok in Hloop by done.
  injection Hloop as <-. simpl.
  intros H. apply bind_Ok in H as (cr & _ & H).
  apply bind_Ok in H as (up & _ & H). injection H as <-.
  exists raw. simpl. split; [done|]. split; [done|]. split; [|done].
  apply omap_length_le.
Qed.

(** X9. On an export of the shape the format gives ([export_ok]),
    [parse_json_export] returns: the container is a list, every entry of
    it has been passed, and the messages are its survivors. *)
Theorem parse_well_formed_export (d : list (str * json)) :
  export_ok d = true ->
  exists e raw_messages,
    container d = JList raw_messages
    /\ parse_json_export_run (JDict d) = (omap survivor raw_messages, Ok e)
    /\ messages e = omap survivor raw_messages.
Proof.
  unfold export_ok.
  intros [[[Hv%bool_decide_eq_true Hc]%andb_true_iff Hca]%andb_true_iff Hua]%andb_true_iff.
  destruct (container d) as [| | | | |raw|] eqn:Hcont; try done.
  unfold parse_json_export_run. rewrite (validate_present d Hv).
  rewrite py_get_container, Hcont. cbn [py_iter].
  rewrite parse_loop_ok.
  2:{ apply Forall_forall. intros msg Hin. apply parse_message_total.
      rewrite forallb_forall in Hc. apply Hc. by apply list_elem_of_In. }
  cbn [py_get mbind result_bind].
  destruct (default (JStr []) (dict_lookup (lit_str "created_at") d)); try done;
    destruct (default (JStr []) (dict_lookup (lit_str "updated_at") d)); try done;
    by do 2 eexists.
Qed.

(** X10. The first entry on which [parse_message] raises ends
    [parse_json_export] with that exception: the Turns before it were
    built, the entries after it are not looked at, and no export is
    returned. *)
Theorem first_bad_message_fails_parse (d : list (str * json))
    (good rest : list json) (bad : json) (e : exn) :
  dict_lookup (lit_str "chat_messages") d = Some (JList (good ++ bad :: rest)) ->
  Forall (fun msg => exists r, parse_message msg = Ok r) good ->
  parse_message bad = Err e ->
  parse_json_export_run (JDict d) = (omap survivor good, Err e).
Proof.
  intros Hd Hgood Hbad. unfold parse_json_export_run.
  rewrite validate_present by (left; rewrite Hd; eauto).
  rewrite py_get_container. unfold container. rewrite Hd.
  cbn [default from_option id py_iter].
  by rewrite (parse_loop_Err good bad rest [] e Hgood Hbad).
Qed.

(** A raw entry that is no object makes its pass raise. *)
Lemma parse_message_not_dict msg :
  (forall d, msg <> JDict d) -> parse_message msg = Err AttributeError.
Proof. destruct msg; try done. intros H. by destruct (H d). Qed.

Lemma parse_message_stamp msg t :
  parse_message msg = Ok (Some t) ->
  exists s : str, timestamp t = replace_char 84 32 (take 19 s).
Proof.
  unfold parse_message.
  intros (c & _ & H)%bind_Ok. apply bind_Ok in H as (raw & _ & H).
  case_bool_decide; [done|]. case_bool_decide as Hne; [done|].
  destruct (is_noise_message (filter_noise raw)) eqn:Hnm; [done|].
  apply bind_Ok in H as (sd & Hsd & H). apply bind_Ok in H as (ca & _ & H).
  apply bind_Ok in H as (st & Hst & H). apply bind_Ok in H as (st' & Hst' & H).
  injection H as <-. simpl.
  destruct ca; try done; simpl in Hst; injection Hst as <-; [|done].
  injection Hst' as <-. by eexists.
Qed.

(** X11. Every Turn of a parsed export has a content that is not blank and
    is no noise message, and a time stamp of at most 19 characters without
    the letter T. *)
Theorem turn_invariant (data : json) (e : export) (t : message) :
  parse_json_export data = Ok e ->
  t ∈ messages e ->
  strip (content t) <> []
  /\ is_noise_message (content t) = false
  /\ length (timestamp t) <= 19
  /\ 84%N ∉ timestamp t.
Proof.
  intros Hp Ht.
  destruct (parse_json_export_elem _ _ _ Hp Ht) as (msg & Hm).
  destruct (parse_message_Some _ _ Hm) as (raw & _ & Hne & Hnm & _).
  destruct (parse_message_stamp _ _ Hm) as (s & ->).
  split; [done|]. split; [done|]. split.
  - unfold replace_char. rewrite length_map, length_take. lia.
  - unfold replace_char. intros (c & Hc & _)%list_elem_of_fmap.
    destruct (N.eqb_spec c 84); done.
Qed.

Lemma content_from_fragments_aux (d : list (str * json)) (items : list json) :
  dict_lookup (lit_str "content") d = Some (JList items) ->
  items <> [] ->
  forallb fragment_ok items = true ->
  extract_content_from_json (JDict d)
  = Ok (JStr (join [NL] (omap fragment_text items))).
Proof.
  intros Hd Hne Hok. unfold extract_content_from_json.
  cbn [py_get mbind result_bind]. rewrite Hd. cbn [default from_option id].
  assert (truthy (JList items) = true) as ->.
  { destruct items; [done|]. reflexivity. }
  cbn [negb py_iter mbind result_bind].
  by rewrite (fragments_ok_items _ Hok), join_values_strs.
Qed.

(** X12. The content of a message with a non-empty list of fragments is
    the texts of the fragments - a str fragment itself, the non-empty text
    of an object - joined by newlines; the other fragments add nothing. *)
Theorem content_from_fragments (d : list (str * json)) (items : list json) :
  dict_lookup (lit_str "content") d = Some (JList items) ->
  items <> [] ->
  forallb fragment_ok items = true ->
  extract_content_from_json (JDict d)
  = Ok (JStr (join [NL] (omap fragment_text items))).
Proof. apply content_from_fragments_aux. Qed.

(** X13. A message whose fragments carry no text (images, tool results)
    leaves no Turn. *)
Theorem textless_content_skipped (d : list (str * json)) (items : list json) :
  dict_lookup (lit_str "content") d = Some (JList items) ->
  items <> [] ->
  forallb fragment_ok items = true ->
  omap fragment_text items = [] ->
  parse_message (JDict d) = Ok None.
Proof.
  intros Hd Hne Hok Hnone. unfold parse_message.
  rewrite (content_from_fragments_aux d items Hd Hne Hok), Hnone. reflexivity.
Qed.

(** ** More on the extractors *)

Lemma split_nl_app_newline a b : split_nl (a ++ NL :: b) = split_nl a ++ split_nl b.
Proof.
  induction a as [|c a IH]; [done|]. simpl.
  destruct (N.eqb_spec c NL) as [->|Hc].
  - by rewrite IH.
  - rewrite IH. pose proof (split_nl_nonempty a).
    by destruct (split_nl a).
Qed.

Lemma split_nl_join_concat texts :
  texts <> [] -> split_nl (join [NL] texts) = concat (map split_nl texts).
Proof.
  induction texts as [|t texts IH]; [done|]. intros _.
  destruct texts as [|t' texts].
  - simpl. by rewrite app_nil_r.
  - change (join [NL] (t :: t' :: texts)) with (t ++ NL :: join [NL] (t' :: texts)).
    rewrite split_nl_app_newline, IH by done. done.
Qed.

Lemma decisions_of_lines lines :
  decisions_loop lines [] = map strip (filter qualifies lines).
Proof. by rewrite decisions_loop_spec. Qed.

Lemma decisions_concat (parts : list (list str)) :
  map strip (filter qualifies (concat parts))
  = concat (map (fun lines => map strip (filter qualifies lines)) parts).
Proof.
  induction parts as [|p parts IH]; [done|].
  simpl. by rewrite filter_app, map_app, IH.
Qed.

(** X14. The decisions of texts joined by newlines, as
    [generate_handoff_standard] joins the contents of the messages, are the
    decisions of each text in turn, cut to the first 20 overall: no
    decision arises across the border of two messages. *)
Theorem extract_decisions_join (texts : list str) :
  extract_decisions (join [NL] texts)
  = take 20 (concat (map (fun text => decisions_loop (split_nl text) []) texts)).
Proof.
  unfold extract_decisions. f_equal. rewrite decisions_of_lines.
  destruct texts as [|t texts]; [done|].
  rewrite split_nl_join_concat by done. rewrite decisions_concat, map_map.
  f_equal. apply map_ext. intros text. by rewrite decisions_of_lines.
Qed.

(** *** What [re.findall] returns *)

Section MatcherSound.
Context {A : Type}.
Variable flags : bool.

Lemma star_greedy_sound cs bos s (k : bool -> str -> option A) x :
  star_greedy cs bos s k = Some x ->
  exists m rest,
    s = m ++ rest /\ forallb cs m = true
    /\ k (bos && bool_decide (m = [])) rest = Some x.
Proof.
  revert bos. induction s as [|c s IH]; intros bos; simpl.
  - intros H. exists [], []. by rewrite andb_true_r.
  - destruct (cs c) eqn:Hc.
    + destruct (star_greedy cs false s k) as [y|] eqn:Hs.
      * intros [= <-]. apply IH in Hs as (m & rest & -> & Hm & Hk).
        exists (c :: m), rest. simpl. rewrite Hc, Hm, andb_false_r.
        by rewrite andb_false_l in Hk.
      * intros H. exists [], (c :: s). by rewrite andb_true_r.
    + intros H. exists [], (c :: s). by rewrite andb_true_r.
Qed.

(** What the matcher returns comes from a match of the pattern. *)
Lemma rmatch_sound r bos s (k : bool -> str -> option A) x :
  rmatch flags r bos s k = Some x ->
  exists m rest,
    s = m ++ rest /\ matches flags r bos m rest
    /\ k (bos && bool_decide (m = [])) rest = Some x.
Proof.
  revert bos s k. induction r as [| | |p|cs|cs|cs|r1 IH1 r2 IH2|r1 IH1 r2 IH2];
    intros bos s k; simpl.
  - intros H. exists [], s. by rewrite andb_true_r.
  - destruct bos; [|done]. intros H. by exists [], s.
  - intros H. exists [], s. rewrite andb_true_r.
    destruct s as [|c [|c' s]]; [by auto | | done].
    destruct (N.eqb_spec c NL) as [->|]; [by auto | done].
  - destruct s as [|c s]; [done|].
    destruct (chr_ok flags p c) eqn:Hc; [|done].
    intros H. exists [c], s. rewrite andb_false_r. eauto.
  - destruct s as [|c s]; [done|].
    destruct (cs c) eqn:Hc; [|done].
    intros H. exists [c], s. rewrite andb_false_r. eauto.
  - apply star_greedy_sound.
  - destruct s as [|c s]; [done|].
    destruct (cs c) eqn:Hc; [|done].
    intros (m & rest & -> & Hm & H)%star_greedy_sound.
    exists (c :: m), rest. simpl. rewrite Hc, Hm, andb_false_r.
    by rewrite andb_false_l in H.
  - intros (m1 & rest1 & -> & Hm1 & (m2 & rest & -> & Hm2 & H)%IH2)%IH1.
    exists (m1 ++ m2), rest. rewrite <- app_assoc. split; [done|].
    split; [by exists m1, m2|].
    destruct m1, m2; simpl in *; rewrite ?andb_true_r, ?andb_false_r in *; done.
  - destruct (rmatch flags r1 bos s k) as [y|] eqn:H1.
    + intros [= <-]. apply IH1 in H1 as (m & rest & -> & Hm & H).
      exists m, rest. auto.
    + intros (m & rest & -> & Hm & H)%IH2. exists m, rest. auto.
Qed.
End MatcherSound.

Lemma match_here_sound flags r bos s rest :
  match_here flags r bos s = Some rest ->
  exists m, s = m ++ rest /\ matches flags r bos m rest.
Proof.
  unfold match_here. intros (m & rest' & -> & Hm & [= ->])%rmatch_sound.
  by exists m.
Qed.

(** Every text [re.findall] returns is a piece of the subject that the
    pattern matches. *)
Lemma findall_from_sound flags r bos skip s x :
  x ∈ findall_from flags r bos skip s ->
  exists pre post b, s = pre ++ x ++ post /\ matches flags r b x post.
Proof.
  revert bos skip. induction s as [|c s IH]; intros bos skip.
  - destruct skip as [|n]; simpl; [|by intros ?%elem_of_nil].
    destruct (match_here flags r bos []) as [rest|] eqn:Hh;
      [|by intros ?%elem_of_nil].
    apply match_here_sound in Hh as (m & E & Hm).
    symmetry in E. apply app_eq_nil in E as [-> ->].
    intros ->%list_elem_of_singleton. by exists [], [], bos.
  - destruct skip as [|n]; simpl.
    + destruct (match_here flags r bos (c :: s)) as [rest|] eqn:Hh.
      * apply match_here_sound in Hh as (m & E & Hm).
        assert (take (length (c :: s) - length rest) (c :: s) = m) as Htake.
        { rewrite E, length_app.
          replace (length m + length rest - length rest) with (length m) by lia.
          by rewrite take_app_length. }
        simpl in Htake. rewrite Htake.
        intros [-> | Hin]%elem_of_cons.
        -- exists [], rest, bos. by rewrite E.
        -- apply IH in Hin as (pre & post & b & -> & Hx).
           by exists (c :: pre), post, b.
      * intros Hin. apply IH in Hin as (pre & post & b & -> & Hx).
        by exists (c :: pre), post, b.
    + intros Hin. apply IH in Hin as (pre & post & b & -> & Hx).
      by exists (c :: pre), post, b.
Qed.

Lemma literals_exact ws m :
  Forall2 (fun p c => chr_ok NOFLAGS p c = true) ws m -> m = ws.
Proof.
  induction 1 as [|p c ws m Hc _ IH]; [done|].
  apply N.eqb_eq in Hc. by subst.
Qed.

Lemma matches_lit_head flags x r bos m rest :
  lit_str x <> [] ->
  flags = NOFLAGS ->
  matches flags (Cat (lit x) r) bos m rest ->
  startswith (lit_str x) m = true.
Proof.
  intros Hne -> (m1 & m2 & -> & Hm1 & _).
  apply matches_literals in Hm1; [|done]. apply literals_exact in Hm1 as ->.
  apply Is_true_true, startswith_spec. by exists m2.
Qed.

Section PathsFound.
Variable uni_isalnum : N -> bool.

Lemma found_paths_elem text p :
  p ∈ found_paths uni_isalnum text ->
  exists pattern,
    pattern ∈ path_patterns uni_isalnum
    /\ p ∈ re_findall NOFLAGS pattern text.
Proof.
  unfold found_paths.
  assert (forall pats (S : gset str),
            p ∈ foldl (fun paths pattern =>
                         paths ∪ list_to_set (re_findall NOFLAGS pattern text))
                      S pats ->
            p ∈ S \/ exists pattern,
                       pattern ∈ pats /\ p ∈ re_findall NOFLAGS pattern text)
    as Hfold.
  { induction pats as [|pat pats IH]; intros S; simpl; [by left|].
    intros [[HS | Hl%elem_of_list_to_set]%elem_of_union
           | (pattern & Hin & Hp)]%IH.
    - by left.
    - right. exists pat. split; [by left | done].
    - right. exists pattern. split; [by right | done]. }
  intros [?%elem_of_empty | H]%Hfold; done.
Qed.

Lemma path_pattern_shape pattern bos m rest :
  pattern ∈ path_patterns uni_isalnum ->
  matches NOFLAGS pattern bos m rest ->
  path_shaped m = true.
Proof.
  unfold path_patterns. intros Hin Hm. unfold path_shaped.
  apply orb_true_iff.
  repeat (apply elem_of_cons in Hin as [-> | Hin]);
    [ left | right .. | by apply elem_of_nil in Hin ].
  - destruct Hm as (m1 & m2 & -> & (c & -> & Hc) & Hm2).
    apply matches_lit_head in Hm2; [|done..].
    change ([c] ++ m2) with (c :: m2). cbv beta iota.
    apply andb_true_iff. split; [exact Hc | exact Hm2].
  - apply matches_lit_head in Hm; [|done..].
    unfold path_heads. cbn [existsb]. by rewrite Hm.
  - apply matches_lit_head in Hm; [|done..].
    unfold path_heads. cbn [existsb]. rewrite Hm. by rewrite !orb_true_r.
  - apply matches_lit_head in Hm; [|done..].
    unfold path_heads. cbn [existsb]. rewrite Hm. by rewrite !orb_true_r.
  - apply matches_lit_head in Hm; [|done..].
    unfold path_heads. cbn [existsb]. rewrite Hm. by rewrite !orb_true_r.
  - apply matches_lit_head in Hm; [|done..].
    unfold path_heads. cbn [existsb]. rewrite Hm. by rewrite !orb_true_r.
  - apply matches_lit_head in Hm; [|done..].
    unfold path_heads. cbn [existsb]. rewrite Hm. by rewrite !orb_true_r.
  - apply matches_lit_head in Hm; [|done..].
    unfold path_heads. cbn [existsb]. rewrite Hm. by rewrite !orb_true_r.
Qed.

(** X15. Every path [extract_file_paths] returns occurs in the text as it
    stands, and begins with a drive letter, a colon and a backslash, or
    with a slash, or with one of the six directory names and a slash. *)
Theorem extract_file_paths_occur (text p : str) :
  p ∈ extract_file_paths uni_isalnum text ->
  contains p text = true /\ path_shaped p = true.
Proof.
  unfold extract_file_paths.
  rewrite filter_and_sort_perm, list_elem_of_filter, elem_of_elements.
  intros [_ (pattern & Hpat & Hin)%found_paths_elem].
  apply findall_from_sound in Hin as (pre & post & b & -> & Hm).
  split.
  - apply Is_true_true, contains_spec. by exists pre, post.
  - by eapply path_pattern_shape.
Qed.
End PathsFound.

(** ** More on the generators *)

Lemma len_app {A} (a b : list A) : len (a ++ b) = (len a + len b)%Z.
Proof. unfold len. rewrite length_app. lia. Qed.

Lemma len_slice_to {A} (i : Z) (l : list A) :
  (0 <= i)%Z -> (len (slice_to i l) <= i)%Z.
Proof.
  intros Hi. unfold slice_to, len, slice_bound. rewrite length_take.
  destruct (Z.ltb_spec i 0); lia.
Qed.

(** X16. The split of [generate_handoff_smart] loses and repeats no
    message, whatever the count: for a count above zero the older messages
    are all but the last [verbatim_count]; for zero and below they are the
    first [- verbatim_count] messages. *)
Theorem split_by_count (verbatim_count : Z) (messages : list message) :
  older_of verbatim_count messages ++ recent_of verbatim_count messages
  = messages
  /\ len (older_of verbatim_count messages)
     = (if (0 <? verbatim_count)%Z
        then Z.max 0 (len messages - verbatim_count)
        else Z.min (- verbatim_count) (len messages)).
Proof.
  split; [apply older_recent|].
  unfold older_of, slice_to, len, slice_bound.
  destruct (Z.ltb_spec verbatim_count (Z.of_nat (length messages)));
    destruct (Z.ltb_spec 0 verbatim_count);
    destruct (Z.ltb_spec (- verbatim_count) 0);
    rewrite ?length_take; simpl; lia.
Qed.

(** X17. The conversation text [generate_smart_summary] puts in the prompt
    is never longer than 350031 characters: 350000 and the truncation
    note. *)
Theorem conversation_text_bounded (messages : list message) :
  (len (conversation_text messages) <= 350031)%Z.
Proof.
  unfold conversation_text. cbv zeta.
  match goal with |- context [Z.ltb 350000 (len ?t)] => set (text := t) end.
  destruct (Z.ltb_spec 350000 (len text)) as [Hlt|Hle]; [|lia].
  rewrite !len_app.
  pose proof (len_slice_to 350000 text).
  change (len [NL; NL]) with 2%Z.
  assert (len (lit_str "[...truncated due to size...]") = 29%Z) as ->
    by reflexivity.
  lia.
Qed.

Lemma join_values_cases (lines : list json) :
  if forallb is_str lines
  then exists texts, join_values lines = Ok texts
  else join_values lines = Err TypeError.
Proof.
  induction lines as [|v lines IH]; simpl; [by exists []|].
  destruct v; try done. simpl.
  destruct (forallb is_str lines).
  - destruct IH as (texts & ->). by eexists.
  - by rewrite IH.
Qed.

Lemma join_lines_cases (lines : list json) :
  if forallb is_str lines
  then exists doc, join_lines lines = Ok doc
  else join_lines lines = Err TypeError.
Proof.
  unfold join_lines. pose proof (join_values_cases lines) as H.
  destruct (forallb is_str lines).
  - destruct H as (texts & ->). by eexists.
  - by rewrite H.
Qed.

Lemma is_str_render_turns (window : list message) :
  forallb is_str (concat (map render_turn window)) = true.
Proof. induction window as [|t window IH]; [done|]. simpl. exact IH. Qed.

Lemma is_str_quick_context (data : export) :
  forallb is_str (quick_context data) = printable (summary data).
Proof.
  unfold quick_context, printable.
  destruct (truthy (summary data)); simpl; [|done].
  by rewrite andb_true_r.
Qed.

Lemma is_str_ai_section (ai_summary : json) :
  forallb is_str (ai_section ai_summary) = printable ai_summary.
Proof.
  unfold ai_section, printable.
  destruct (truthy ai_summary); simpl; [|done].
  by rewrite andb_true_r.
Qed.

Lemma is_str_map {A} (f : A -> str) (l : list A) :
  forallb is_str (map (fun x => JStr (f x)) l) = true.
Proof. by induction l. Qed.

Lemma is_str_files_section (file_paths : list str) :
  forallb is_str (files_section file_paths) = true.
Proof.
  unfold files_section. case_bool_decide; [done|].
  by rewrite !forallb_app, is_str_map.
Qed.

Lemma is_str_decisions_section (decisions : list str) :
  forallb is_str (decisions_section decisions) = true.
Proof.
  unfold decisions_section. case_bool_decide; [done|].
  by rewrite !forallb_app, is_str_map.
Qed.

Lemma io_bind_run {A B} (m : io A) (f : A -> io B) :
  m ≫= f = match m.2 with
           | Ok a => (m.1 ++ (f a).1, (f a).2)
           | Err e => (m.1, Err e)
           end.
Proof.
  destruct m as [t [a|e]]; simpl; [|done].
  unfold mbind, io_bind. by destruct (f a).
Qed.

Section MoreRuns.
Variable uni_isalnum : N -> bool.
Variable py_repr : json -> str.
Variable py_lower : str -> str.
Variable urlopen : api_request -> http_reply.
Variable generated : str.
Variable date_str : str.
Variable mode_answer : str.

Lemma is_str_standard_lines (data : export) :
  forallb is_str (standard_lines uni_isalnum py_repr generated data)
  = printable (summary data).
Proof.
  unfold standard_lines. cbv zeta.
  rewrite !forallb_app, is_str_quick_context, is_str_files_section,
    is_str_decisions_section, is_str_render_turns.
  simpl. by rewrite andb_true_r.
Qed.

Lemma is_str_smart_lines (data : export) (older recent : list message)
    (ai_summary : json) :
  forallb is_str (smart_lines py_repr generated data older recent ai_summary)
  = printable (summary data) && printable ai_summary.
Proof.
  unfold smart_lines.
  rewrite !forallb_app, is_str_quick_context, is_str_ai_section,
    is_str_render_turns.
  simpl. by rewrite !andb_true_r.
Qed.

(** X18. [generate_handoff_standard] returns a document exactly when the
    summary of the export counts as false or is a str; any other summary
    makes the final join raise [TypeError]. *)
Theorem standard_handoff_outcome (data : export) :
  if printable (summary data)
  then exists doc,
         generate_handoff_standard uni_isalnum py_repr generated data = Ok doc
  else generate_handoff_standard uni_isalnum py_repr generated data
       = Err TypeError.
Proof.
  unfold generate_handoff_standard.
  pose proof (join_lines_cases
                (standard_lines uni_isalnum py_repr generated data)) as H.
  by rewrite is_str_standard_lines in H.
Qed.

Lemma smart_trace (data : export) (api_key config : json) :
  let run := generate_handoff_smart py_repr urlopen generated data api_key
                                    config in
  run.1 = []
  \/ exists verbatim_count model max_tokens,
       configured_count config = Ok verbatim_count
       /\ older_of verbatim_count (messages data) <> []
       /\ run.1
          = [ApiCall
               (ApiRequest api_key model max_tokens
                  (PROMPT_HEAD
                   ++ conversation_text
                        (older_of verbatim_count (messages data))
                   ++ PROMPT_TAIL))].
Proof.
  cbv zeta. unfold generate_handoff_smart, configured_count.
  destruct (smart_mode_get config (lit_str "verbatim_recent_messages") _)
    as [v|e]; [|by left].
  rewrite pure_Ok_bind.
  destruct (as_int v) as [verbatim_count|e] eqn:Hv; [|by left].
  rewrite pure_Ok_bind.
  case_bool_decide as Ho.
  - left. rewrite io_bind_run. reflexivity.
  - unfold generate_smart_summary.
    destruct (smart_mode_get config (lit_str "model") _) as [model|e];
      [|by left].
    rewrite pure_Ok_bind.
    destruct (smart_mode_get config (lit_str "max_output_tokens") _)
      as [max_tokens|e]; [|by left].
    rewrite pure_Ok_bind.
    right. exists verbatim_count, model, max_tokens.
    split; [exact Hv|]. split; [done|].
    unfold call_claude_api. rewrite emit_bind. rewrite io_bind_run.
    cbn [fst snd pure]. by destruct (read_reply _).
Qed.

(** X19. [generate_handoff_smart] calls the API at most once, and only
    when there are older messages; the call carries the key it was given
    and a prompt made of the older messages alone: the recent messages are
    not sent. *)
Theorem smart_handoff_calls (data : export) (api_key config : json)
    (ev : event) :
  ev ∈ (generate_handoff_smart py_repr urlopen generated data api_key
                               config).1 ->
  exists verbatim_count req,
    configured_count config = Ok verbatim_count
    /\ older_of verbatim_count (messages data) <> []
    /\ (generate_handoff_smart py_repr urlopen generated data api_key
                               config).1 = [ev]
    /\ ev = ApiCall req
    /\ req_api_key req = api_key
    /\ req_prompt req
       = PROMPT_HEAD
         ++ conversation_text (older_of verbatim_count (messages data))
         ++ PROMPT_TAIL.
Proof.
  destruct (smart_trace data api_key config)
    as [-> | (verbatim_count & model & max_tokens & Hc & Ho & ->)].
  - by intros ?%elem_of_nil.
  - intros ->%list_elem_of_singleton.
    exists verbatim_count. eexists. by repeat split.
Qed.

End MoreRuns.

Section SmartOutcome.
Variable py_repr : json -> str.
Variable urlopen : api_request -> http_reply.
Variable generated : str.

(** X20. After a call that returned, [generate_handoff_smart] returns a
    document exactly when the summary of the export and the reply each
    count as false or are a str; otherwise the final join raises
    [TypeError], the call having been made. *)
Theorem smart_reply_must_be_text (data : export) (api_key config : json)
    (req : api_request) (ai_summary : json) :
  (generate_handoff_smart py_repr urlopen generated data api_key config).1
  = [ApiCall req] ->
  read_reply (urlopen req) = Ok ai_summary ->
  if printable (summary data) && printable ai_summary
  then exists doc,
         (generate_handoff_smart py_repr urlopen generated data api_key
                                 config).2 = Ok doc
  else (generate_handoff_smart py_repr urlopen generated data api_key
                               config).2 = Err TypeError.
Proof.
  unfold generate_handoff_smart.
  destruct (smart_mode_get config (lit_str "verbatim_recent_messages") _)
    as [v|e]; [|done].
  rewrite pure_Ok_bind.
  destruct (as_int v) as [verbatim_count|e]; [|done].
  rewrite pure_Ok_bind.
  case_bool_decide as Ho.
  { rewrite io_bind_run. done. }
  unfold generate_smart_summary.
  destruct (smart_mode_get config (lit_str "model") _) as [model|e]; [|done].
  rewrite pure_Ok_bind.
  destruct (smart_mode_get config (lit_str "max_output_tokens") _)
    as [max_tokens|e]; [|done].
  rewrite pure_Ok_bind.
  unfold call_claude_api. rewrite emit_bind, io_bind_run. cbn [fst snd pure].
  match goal with
  | |- context [read_reply (urlopen ?r)] => set (sent := r)
  end.
  destruct (read_reply (urlopen sent)) as [reply|e] eqn:Hr; cbn [fst snd].
  2: { intros [= <-]. by rewrite Hr. }
  rewrite app_nil_r. intros [= <-]. rewrite Hr. intros [= <-].
  pose proof (join_lines_cases
                (smart_lines py_repr generated data
                   (older_of verbatim_count (messages data))
                   (recent_of verbatim_count (messages data)) reply)) as H.
  by rewrite is_str_smart_lines in H.
Qed.

End SmartOutcome.

(** ** More on the run *)

Lemma dash_spaces_chars (P : N -> bool) (in_run : bool) (s : str) :
  P 45%N = true ->
  Forall (fun c => P c = true \/ is_space c = true) s ->
  Forall (fun c => P c = true /\ is_space c = false \/ c = 45%N)
         (dash_spaces in_run s).
Proof.
  intros Hdash Hs. revert in_run.
  induction Hs as [|c s Hc _ IH]; intros in_run; simpl; [done|].
  destruct (is_space c) eqn:Hsp.
  - apply Forall_app_2; [|apply IH].
    destruct in_run; [constructor | constructor; [by right | constructor]].
  - constructor; [|apply IH]. left. by destruct Hc.
Qed.

Lemma is_word_separator uni_isalnum sep :
  sep ∈ separators -> is_word uni_isalnum sep = false.
Proof.
  unfold separators.
  intros Hin. repeat (apply elem_of_cons in Hin as [-> | Hin]); try done.
  by apply elem_of_nil in Hin.
Qed.

Section TheRun.
Variable uni_isalnum : N -> bool.
Variable py_repr : json -> str.
Variable py_lower : str -> str.
Variable urlopen : api_request -> http_reply.
Variable generated : str.
Variable date_str : str.
Variable mode_answer : str.

(** The name of the chat once the two [re.sub] have cleaned it. *)
Lemma cleaned_name_chars (s : str) (sep : N) :
  sep ∈ separators ->
  sep ∉ dash_spaces false
          (filter (any_of [is_word uni_isalnum; is_space; one_of "-"]) s).
Proof.
  intros Hsep Hin.
  assert (Forall (fun c => any_of [is_word uni_isalnum; one_of "-"] c = true
                           /\ is_space c = false \/ c = 45%N)
            (dash_spaces false
               (filter (any_of [is_word uni_isalnum; is_space; one_of "-"]) s)))
    as H.
  { apply dash_spaces_chars; [reflexivity|].
    apply Forall_forall. intros c [Hc _]%list_elem_of_filter.
    apply Is_true_true in Hc. revert Hc. unfold any_of. simpl.
    destruct (is_word uni_isalnum c), (is_space c); simpl; auto. }
  rewrite Forall_forall in H. apply H in Hin.
  unfold any_of in Hin. simpl in Hin.
  rewrite (is_word_separator _ _ Hsep) in Hin.
  unfold separators in Hsep.
  repeat (apply elem_of_cons in Hsep as [-> | Hsep]);
    try (by apply elem_of_nil in Hsep);
    by destruct Hin as [[? _] | ?].
Qed.

(** X21. The file name [main] writes to is the date, [-handoff-], a safe
    name of at most 50 characters, the mode and [.md]; where [lower] brings
    in no full stop, slash or backslash, the safe name holds none: the name
    of the chat cannot lead out of the output directory. *)
Theorem output_filename_stays_put (name : json) (m : mode) (filename : str) :
  (forall (s : str) (sep : N),
      sep ∈ separators -> sep ∉ s -> sep ∉ py_lower s) ->
  output_filename uni_isalnum py_lower date_str name m = Ok filename ->
  exists safe_name,
    filename = date_str ++ lit_str "-handoff-" ++ safe_name ++ mode_suffix m
               ++ lit_str ".md"
    /\ (len safe_name <= 50)%Z
    /\ forall sep, sep ∈ separators -> sep ∉ safe_name.
Proof.
  intros Hlower. unfold output_filename.
  destruct name as [| | | |s| |]; try done. intros [= <-].
  eexists. split; [by destruct m|]. split.
  - by apply len_slice_to.
  - intros sep Hsep Hin. unfold slice_to in Hin.
    apply (subseteq_take _) in Hin. revert Hin.
    by apply Hlower, cleaned_name_chars.
Qed.

Lemma main_cases (input config : json) :
  (exists e,
      main uni_isalnum py_repr py_lower urlopen generated date_str mode_answer
           input config = ([], Err e))
  \/ exists data m generation,
       parse_json_export input = Ok data
       /\ get_mode mode_answer config = Ok m
       /\ match m with
          | Smart =>
              exists api_key,
                py_get config (lit_str "anthropic_api_key") (JStr [])
                = Ok api_key
                /\ generation
                   = (let g := generate_handoff_smart py_repr urlopen
                                 generated data api_key config in
                      (RunSmart :: g.1, g.2))
          | Standard =>
              generation
              = ([RunStandard],
                 generate_handoff_standard uni_isalnum py_repr generated data)
          end
       /\ main uni_isalnum py_repr py_lower urlopen generated date_str
               mode_answer input config
          = match generation.2 with
            | Ok doc =>
                match output_filename uni_isalnum py_lower date_str
                                      (name data) m with
                | Ok filename =>
                    (generation.1 ++ [WriteFile filename doc], Ok tt)
                | Err e => (generation.1, Err e)
                end
            | Err e => (generation.1, Err e)
            end.
Proof.
  unfold main.
  destruct (parse_json_export input) as [data|e] eqn:Hp.
  2: { left. destruct e; by eexists. }
  rewrite pure_Ok_bind.
  destruct (get_mode mode_answer config) as [m|e] eqn:Hm.
  2: { left. by eexists. }
  rewrite pure_Ok_bind.
  destruct m.
  - destruct (py_get config (lit_str "anthropic_api_key") (JStr []))
      as [api_key|e] eqn:Hk.
    2: { left. by eexists. }
    right. exists data, Smart. eexists. split; [done|]. split; [done|].
    split; [by exists api_key|].
    rewrite pure_Ok_bind, emit_bind. cbv zeta. rewrite io_bind_run.
    cbn [fst snd].
    destruct (generate_handoff_smart _ _ _ _ _ _) as [t [doc|e]];
      cbn [fst snd]; [|done].
    destruct (output_filename _ _ _ _ _) as [filename|e]; cbn;
      by rewrite ?app_nil_r.
  - right. exists data, Standard. eexists. split; [done|]. split; [done|].
    split; [done|].
    rewrite emit_bind. rewrite io_bind_run. cbn [fst snd pure].
    destruct (generate_handoff_standard _ _ _ _) as [doc|e];
      cbn [fst snd]; [|done].
    destruct (output_filename _ _ _ _ _) as [filename|e]; cbn;
      by rewrite ?app_nil_r.
Qed.

Lemma smart_trace_calls (data : export) (api_key config : json) :
  let g := generate_handoff_smart py_repr urlopen generated data api_key
                                  config in
  filter is_write g.1 = [] /\ length (filter is_call g.1) <= 1
  /\ forall req, ApiCall req ∈ g.1 -> req_api_key req = api_key.
Proof.
  cbv zeta.
  destruct (smart_trace py_repr urlopen generated data api_key config)
    as [-> | (verbatim_count & model & max_tokens & _ & _ & ->)].
  - repeat split; [simpl; lia|]. by intros req ?%elem_of_nil.
  - repeat split; [simpl; lia|].
    by intros req [= ->]%list_elem_of_singleton.
Qed.

Lemma file_written_cases (input config : json) :
  match (main uni_isalnum py_repr py_lower urlopen generated date_str
              mode_answer input config).2 with
  | Ok _ =>
      exists before filename doc,
        (main uni_isalnum py_repr py_lower urlopen generated date_str
              mode_answer input config).1
        = before ++ [WriteFile filename doc]
        /\ filter is_write before = []
  | Err _ =>
      filter is_write
        (main uni_isalnum py_repr py_lower urlopen generated date_str
              mode_answer input config).1 = []
  end.
Proof.
  destruct (main_cases input config)
    as [(e & ->) | (data & m & generation & _ & _ & Hg & ->)]; [done|].
  assert (filter is_write generation.1 = []) as Hw.
  { destruct m.
    - destruct Hg as (api_key & _ & ->). cbv zeta. cbn [fst snd].
      destruct (smart_trace_calls data api_key config) as (Hw & _ & _).
      by rewrite !filter_cons, !decide_False by (by intros []).
    - by subst generation. }
  destruct generation.2 as [doc|e]; cbn [fst snd]; [|done].
  destruct (output_filename _ _ _ _ _) as [filename|e]; cbn [fst snd];
    [|done].
  by exists generation.1, filename, doc.
Qed.

(** X22. A run calls the API at most once; a run that ends well wrote one
    file, as its last action, and a run that raises wrote none. *)
Theorem file_written_last_or_never (input config : json) :
  length (filter is_call
            (main uni_isalnum py_repr py_lower urlopen generated date_str
                  mode_answer input config).1) <= 1
  /\ match (main uni_isalnum py_repr py_lower urlopen generated date_str
                 mode_answer input config).2 with
     | Ok _ =>
         exists before filename doc,
           (main uni_isalnum py_repr py_lower urlopen generated date_str
                 mode_answer input config).1
           = before ++ [WriteFile filename doc]
           /\ filter is_write before = []
     | Err _ =>
         filter is_write
           (main uni_isalnum py_repr py_lower urlopen generated date_str
                 mode_answer input config).1 = []
     end.
Proof.
  split; [|apply file_written_cases].
  destruct (main_cases input config)
    as [(e & ->) | (data & m & generation & _ & _ & Hg & ->)];
    [simpl; lia|].
  assert (length (filter is_call generation.1) <= 1) as Hc.
  { destruct m.
    - destruct Hg as (api_key & _ & ->). cbv zeta. cbn [fst snd].
      destruct (smart_trace_calls data api_key config) as (_ & Hc & _).
      by rewrite filter_cons, decide_False by (by intros []).
    - subst generation. simpl. lia. }
  destruct generation.2 as [doc|e]; cbn [fst snd]; [|done].
  destruct (output_filename _ _ _ _ _) as [filename|e]; cbn [fst snd];
    [|done].
  rewrite filter_app, length_app. simpl. lia.
Qed.

(** X23. A run calls the API only if the export parsed, the configuration
    file was loaded and is an object whose ['anthropic_api_key'] counts as
    true and is not the placeholder, and the operator did not answer 2; the
    key sent is that one. With no configuration file, or an unreadable one,
    no call is made. *)
Theorem api_call_needs_key (input : json) (file : config_file)
    (req : api_request) :
  ApiCall req
    ∈ (main uni_isalnum py_repr py_lower urlopen generated date_str
            mode_answer input (load_config file)).1 ->
  exists fields api_key,
    file = Loaded (JDict fields)
    /\ dict_lookup (lit_str "anthropic_api_key") fields = Some api_key
    /\ truthy api_key = true
    /\ api_key <> JStr (lit_str "YOUR_API_KEY_HERE")
    /\ strip mode_answer <> lit_str "2"
    /\ req_api_key req = api_key
    /\ exists data, parse_json_export input = Ok data.
Proof.
  destruct (main_cases input (load_config file))
    as [(e & ->) | (data & m & generation & Hp & Hm & Hg & ->)].
  { by intros ?%elem_of_nil. }
  intros Hin.
  assert (ApiCall req ∈ generation.1) as Hcall.
  { destruct generation.2 as [doc|e]; [|done].
    destruct (output_filename _ _ _ _ _) as [filename|e]; [|done].
    cbn [fst] in Hin. apply elem_of_app in Hin as [?|Hin]; [done|].
    by apply list_elem_of_singleton in Hin. }
  clear Hin. destruct m.
  2: { subst generation. by apply list_elem_of_singleton in Hcall. }
  destruct Hg as (api_key & Hk & ->). cbv zeta in Hcall. cbn [fst] in Hcall.
  apply elem_of_cons in Hcall as [?|Hcall]; [done|].
  destruct (smart_trace_calls data api_key (load_config file))
    as (_ & _ & Hkey).
  apply Hkey in Hcall. clear Hkey.
  unfold get_mode in Hm. rewrite Hk in Hm. cbn [mbind result_bind] in Hm.
  destruct (truthy api_key) eqn:Ht; [|done].
  cbn [andb existsb negb] in Hm.
  destruct (eq_str api_key (lit_str "YOUR_API_KEY_HERE")) eqn:Hph; [done|].
  destruct (eq_str api_key []) eqn:He; [done|].
  cbn [orb negb] in Hm.
  destruct (str_eqb (strip mode_answer) (lit_str "2")) eqn:Ha; [done|].
  destruct file as [| |v]; try (by injection Hk as <-).
  destruct v as [| | | | | |fields]; try done.
  injection Hk as Hk.
  destruct (dict_lookup (lit_str "anthropic_api_key") fields) as [key|] eqn:Hl;
    [|by subst api_key].
  cbn in Hk. subst key.
  exists fields, api_key. repeat split; try done.
  - intros ->. simpl in Hph. unfold str_eqb in Hph.
    by rewrite bool_decide_eq_true_2 in Hph.
  - intros E. unfold str_eqb in Ha. by rewrite bool_decide_eq_true_2 in Ha.
  - by exists data.
Qed.

(** X24. An export whose name is not a str - a list passes the parser - is
    never written: the run raises, at the latest when it makes the file
    name. *)
Theorem unnamed_export_never_written (input config : json) (data : export) :
  parse_json_export input = Ok data ->
  is_str (name data) = false ->
  exists e,
    (main uni_isalnum py_repr py_lower urlopen generated date_str mode_answer
          input config).2 = Err e
    /\ filter is_write
         (main uni_isalnum py_repr py_lower urlopen generated date_str
               mode_answer input config).1 = [].
Proof.
  intros Hp Hname.
  pose proof (file_written_cases input config) as Hw.
  destruct (main_cases input config)
    as [(e & E) | (data' & m & generation & Hp' & _ & _ & E)].
  { rewrite E. by exists e. }
  rewrite Hp in Hp'. injection Hp' as <-.
  rewrite E in Hw |- *.
  destruct generation.2 as [doc|e]; [|by exists e].
  destruct (output_filename _ _ _ _ _) as [filename|e] eqn:Ho;
    [|by exists e].
  unfold output_filename in Ho. by destruct (name data).
Qed.

End TheRun.

(** ** The further properties at sample inputs *)

Lemma filter_noise_clean_text_witness :
  (forall line, line ∈ split_nl (lit_str "hello there") ->
     is_noise_line line = false)
  /\ filter_noise (lit_str "hello there") = lit_str "hello there".
Proof.
  assert (forall line, line ∈ split_nl (lit_str "hello there") ->
            is_noise_line line = false) as H.
  { intros line Hin. apply list_elem_of_singleton in Hin. subst line.
    vm_compute. reflexivity. }
  split; [exact H|]. exact (filter_noise_clean_text _ H).
Defined.

Lemma noise_line_marks_witness :
  is_noise_line status_text = true /\ may_be_noise status_text = true.
Proof.
  assert (is_noise_line status_text = true) as H by (vm_compute; reflexivity).
  split; [exact H|]. exact (noise_line_marks _ H).
Defined.

Lemma all_noise_message_skipped_witness :
  extract_content_from_json status_message = Ok (JStr status_text)
  /\ (forall line, line ∈ split_nl status_text -> is_noise_line line = true)
  /\ parse_message status_message = Ok None.
Proof.
  assert (extract_content_from_json status_message = Ok (JStr status_text))
    as H1 by (vm_compute; reflexivity).
  assert (forall line, line ∈ split_nl status_text ->
            is_noise_line line = true) as H2.
  { intros line Hin. apply list_elem_of_singleton in Hin. subst line.
    vm_compute. reflexivity. }
  split; [exact H1|]. split; [exact H2|].
  exact (all_noise_message_skipped _ _ H1 H2).
Defined.

Lemma parse_message_total_witness :
  message_ok outline_request = true
  /\ exists r, parse_message outline_request = Ok r.
Proof.
  assert (message_ok outline_request = true) as H by (vm_compute; reflexivity).
  split; [exact H|]. exact (parse_message_total _ H).
Defined.

Lemma parse_json_export_shape_witness :
  parse_json_export (JDict greeting_fields) = Ok greeting_parsed
  /\ exists raw_messages,
       py_iter (container greeting_fields) = Ok raw_messages
       /\ messages greeting_parsed = omap survivor raw_messages.
Proof.
  assert (parse_json_export (JDict greeting_fields) = Ok greeting_parsed) as H
    by (vm_compute; reflexivity).
  split; [exact H|].
  destruct (parse_json_export_shape _ _ H) as (raw & H1 & H2 & _).
  by exists raw.
Defined.

Lemma parse_well_formed_export_witness :
  export_ok greeting_fields = true
  /\ exists e, (parse_json_export_run (JDict greeting_fields)).2 = Ok e.
Proof.
  assert (export_ok greeting_fields = true) as H by (vm_compute; reflexivity).
  split; [exact H|].
  destruct (parse_well_formed_export _ H) as (e & raw & _ & Hrun & _).
  exists e. exact (f_equal snd Hrun).
Defined.

Lemma first_bad_message_fails_parse_witness :
  dict_lookup (lit_str "chat_messages") broken_fields
  = Some (JList ([outline_request] ++ JInt 5 :: [outline_reply]))
  /\ Forall (fun msg => exists r, parse_message msg = Ok r) [outline_request]
  /\ parse_message (JInt 5) = Err AttributeError
  /\ parse_json_export_run (JDict broken_fields)
     = (omap survivor [outline_request], Err AttributeError).
Proof.
  assert (dict_lookup (lit_str "chat_messages") broken_fields
          = Some (JList ([outline_request] ++ JInt 5 :: [outline_reply])))
    as H1 by reflexivity.
  assert (Forall (fun msg => exists r, parse_message msg = Ok r)
                 [outline_request]) as H2.
  { constructor; [|constructor]. eexists. vm_compute. reflexivity. }
  assert (parse_message (JInt 5) = Err AttributeError) as H3 by reflexivity.
  split; [exact H1|]. split; [exact H2|]. split; [exact H3|].
  exact (first_bad_message_fails_parse _ _ _ _ _ H1 H2 H3).
Defined.

Lemma turn_invariant_witness :
  parse_json_export greeting_export = Ok greeting_parsed
  /\ greeting_turn ∈ messages greeting_parsed
  /\ strip (content greeting_turn) <> []
  /\ is_noise_message (content greeting_turn) = false.
Proof.
  assert (parse_json_export greeting_export = Ok greeting_parsed) as H1
    by (vm_compute; reflexivity).
  assert (greeting_turn ∈ messages greeting_parsed) as H2 by (simpl; left).
  split; [exact H1|]. split; [exact H2|].
  destruct (turn_invariant _ _ _ H1 H2) as (H3 & H4 & _).
  split; [exact H3 | exact H4].
Defined.

Lemma content_from_fragments_witness :
  dict_lookup (lit_str "content") reply_fields
  = Some (JList [ JDict [ (lit_str "type", JStr (lit_str "text"));
                          (lit_str "text", JStr (lit_str "Here is the outline")) ] ])
  /\ extract_content_from_json (JDict reply_fields)
     = Ok (JStr (lit_str "Here is the outline")).
Proof.
  assert (dict_lookup (lit_str "content") reply_fields
          = Some (JList [ JDict [ (lit_str "type", JStr (lit_str "text"));
                                  (lit_str "text",
                                   JStr (lit_str "Here is the outline")) ] ]))
    as H1 by reflexivity.
  split; [exact H1|].
  refine (content_from_fragments _ _ H1 _ _);
    [discriminate | vm_compute; reflexivity].
Defined.

Lemma textless_content_skipped_witness :
  dict_lookup (lit_str "content") image_fields
  = Some (JList [ JDict [ (lit_str "type", JStr (lit_str "image")) ] ])
  /\ parse_message (JDict image_fields) = Ok None.
Proof.
  assert (dict_lookup (lit_str "content") image_fields
          = Some (JList [ JDict [ (lit_str "type", JStr (lit_str "image")) ] ]))
    as H1 by reflexivity.
  split; [exact H1|].
  refine (textless_content_skipped _ _ H1 _ _ _);
    [discriminate | vm_compute; reflexivity | vm_compute; reflexivity].
Defined.

Lemma extract_file_paths_occur_witness :
  lit_str "src/handoff.py"
    ∈ extract_file_paths sample_isalnum (lit_str "see src/handoff.py")
  /\ contains (lit_str "src/handoff.py") (lit_str "see src/handoff.py") = true
  /\ path_shaped (lit_str "src/handoff.py") = true.
Proof.
  assert (lit_str "src/handoff.py"
            ∈ extract_file_paths sample_isalnum (lit_str "see src/handoff.py"))
    as H.
  { assert (extract_file_paths sample_isalnum (lit_str "see src/handoff.py")
            = [lit_str "/handoff.py"; lit_str "src/handoff.py"]) as ->
      by (vm_compute; reflexivity).
    right. left. }
  split; [exact H|]. exact (extract_file_paths_occur _ _ _ H).
Defined.

Lemma smart_handoff_calls_witness :
  ApiCall sample_request
    ∈ (generate_handoff_smart sample_repr timed_out sample_generated
         two_turn_parsed (JStr (lit_str "key")) one_recent_config).1
  /\ exists verbatim_count,
       configured_count one_recent_config = Ok verbatim_count
       /\ older_of verbatim_count (messages two_turn_parsed) <> [].
Proof.
  assert (ApiCall sample_request
            ∈ (generate_handoff_smart sample_repr timed_out sample_generated
                 two_turn_parsed (JStr (lit_str "key")) one_recent_config).1)
    as H.
  { assert ((generate_handoff_smart sample_repr timed_out sample_generated
               two_turn_parsed (JStr (lit_str "key")) one_recent_config).1
            = [ApiCall sample_request]) as -> by (vm_compute; reflexivity).
    left. }
  split; [exact H|].
  destruct (smart_handoff_calls _ _ _ _ _ _ _ H) as (c & req & H1 & H2 & _).
  by exists c.
Defined.

Lemma smart_reply_must_be_text_witness :
  (generate_handoff_smart sample_repr answering sample_generated
     two_turn_parsed (JStr (lit_str "key")) one_recent_config).1
  = [ApiCall sample_request]
  /\ read_reply (answering sample_request)
     = Ok (JStr (lit_str "## Session Overview"))
  /\ exists doc,
       (generate_handoff_smart sample_repr answering sample_generated
          two_turn_parsed (JStr (lit_str "key")) one_recent_config).2 = Ok doc.
Proof.
  assert ((generate_handoff_smart sample_repr answering sample_generated
             two_turn_parsed (JStr (lit_str "key")) one_recent_config).1
          = [ApiCall sample_request]) as H1 by (vm_compute; reflexivity).
  assert (read_reply (answering sample_request)
          = Ok (JStr (lit_str "## Session Overview"))) as H2 by reflexivity.
  split; [exact H1|]. split; [exact H2|].
  exact (smart_reply_must_be_text _ _ _ _ _ _ _ _ H1 H2).
Defined.

Lemma sample_lower_separators (s : str) (sep : N) :
  sep ∈ separators -> sep ∉ s -> sep ∉ sample_lower s.
Proof.
  intros Hsep Hs (c & E & Hc)%list_elem_of_fmap. apply Hs.
  assert (sre_lower c = c) as Hsame.
  { destruct (sre_lower_cases c) as [? | H]; [done|]. exfalso.
    unfold separators in Hsep.
    repeat (apply elem_of_cons in Hsep as [-> | Hsep]);
      try (by apply elem_of_nil in Hsep); lia. }
  by rewrite E, Hsame.
Qed.

Lemma output_filename_stays_put_witness :
  output_filename sample_isalnum sample_lower sample_date
                  (JStr (lit_str "../My Plan")) Standard
  = Ok (lit_str "2024-05-01-handoff-my-plan-standard.md")
  /\ exists safe_name,
       lit_str "2024-05-01-handoff-my-plan-standard.md"
       = sample_date ++ lit_str "-handoff-" ++ safe_name
         ++ mode_suffix Standard ++ lit_str ".md"
       /\ (len safe_name <= 50)%Z.
Proof.
  assert (output_filename sample_isalnum sample_lower sample_date
                          (JStr (lit_str "../My Plan")) Standard
          = Ok (lit_str "2024-05-01-handoff-my-plan-standard.md")) as H
    by (vm_compute; reflexivity).
  split; [exact H|].
  destruct (output_filename_stays_put _ _ _ _ _ _ sample_lower_separators H)
    as (safe_name & H1 & H2 & _).
  by exists safe_name.
Defined.

Lemma api_call_needs_key_witness :
  ApiCall sample_request
    ∈ (main sample_isalnum sample_repr sample_lower timed_out sample_generated
            sample_date sample_answer two_turn_export
            (load_config (Loaded one_recent_config))).1
  /\ exists fields api_key,
       Loaded one_recent_config = Loaded (JDict fields)
       /\ dict_lookup (lit_str "anthropic_api_key") fields = Some api_key
       /\ truthy api_key = true
       /\ req_api_key sample_request = api_key.
Proof.
  assert (ApiCall sample_request
            ∈ (main sample_isalnum sample_repr sample_lower timed_out
                    sample_generated sample_date sample_answer two_turn_export
                    (load_config (Loaded one_recent_config))).1) as H.
  { assert ((main sample_isalnum sample_repr sample_lower timed_out
                  sample_generated sample_date sample_answer two_turn_export
                  (load_config (Loaded one_recent_config))).1
            = [RunSmart; ApiCall sample_request]) as ->
      by (vm_compute; reflexivity).
    right. left. }
  split; [exact H|].
  destruct (api_call_needs_key _ _ _ _ _ _ _ _ _ _ H)
    as (fields & api_key & H1 & H2 & H3 & _ & _ & H4 & _).
  by exists fields, api_key.
Defined.

Lemma unnamed_export_never_written_witness :
  parse_json_export listed_name_export = Ok listed_name_parsed
  /\ is_str (name listed_name_parsed) = false
  /\ exists e,
       (main sample_isalnum sample_repr sample_lower timed_out sample_generated
             sample_date sample_answer listed_name_export (JDict [])).2
       = Err e.
Proof.
  assert (parse_json_export listed_name_export = Ok listed_name_parsed) as H1
    by (vm_compute; reflexivity).
  assert (is_str (name listed_name_parsed) = false) as H2 by reflexivity.
  split; [exact H1|]. split; [exact H2|].
  destruct (unnamed_export_never_written sample_isalnum sample_repr
              sample_lower timed_out sample_generated sample_date
              sample_answer listed_name_export (JDict []) _ H1 H2)
    as (e & He & _).
  by exists e.
Defined.

(** ** Truncated turns in the documents *)




Section Documents.
Variable uni_isalnum : N -> bool.
Variable py_repr : json -> str.
Variable urlopen : api_request -> http_reply.
Variable generated : str.




End Documents.


(** ** A reply without text *)

(** C5. A reply of the expected shape whose text is null is not taken as a
    failure: [call_claude_api] returns it, the section of the summary is
    left out, and [main] writes a document that counts one message as
    summarized and holds no summary of it. *)
Theorem null_reply_is_written :
  read_reply (null_text sample_request) = Ok JNull
  /\ exists doc,
       main sample_isalnum sample_repr sample_lower null_text sample_generated
            sample_date sample_answer two_turn_export one_recent_config
       = ([ RunSmart; ApiCall sample_request;
            WriteFile (lit_str "2024-05-01-handoff-plan-smart.md") doc ],
          Ok tt)
       /\ contains (lit_str "(1 summarized, 1 verbatim)") doc = true
       /\ contains (lit_str "## AI-Summarized Earlier Content") doc = false.
Proof.
  split; [reflexivity|].
  set (out := main sample_isalnum sample_repr sample_lower null_text
                   sample_generated sample_date sample_answer two_turn_export
                   one_recent_config).
  vm_compute in out.
  match eval cbv delta [out] in out with
  | (_ :: _ :: WriteFile _ ?d :: _, _) => exists d
  end.
  split; [reflexivity|]. split; vm_compute; reflexivity.
Qed.
